(** * charts-build-scripts, package [auto]: chart version bump and
      package.yaml validation

    Shallow embedding of [pkg/auto/chart_bump_versions.go] and of the
    validation half of [pkg/auto] ([parsePackageYaml],
    [checkUpstreamOptions]).

    Go strings are byte sequences and are modelled by [string]; [uint64] is
    a [Z] kept in [0, 2^64) with the wrap-around of [++] written out; a nil
    pointer is [None]; a function returning [error] runs in a small monad
    over the [Bump] receiver whose result is a value, an error or a panic. *)

From Stdlib Require Import ZArith Bool List Ascii String Lia.
From Stdlib Require Import Numbers.DecimalString.
Import ListNotations.

Open Scope string_scope.
Open Scope Z_scope.

(* ------------------------------------------------------------------ *)
(** ** The parts of Go's [strings] and [strconv] the package calls *)

Module GoStrings.

(** [s[:n]] *)
Fixpoint take (n : nat) (s : string) : string :=
  match n, s with
  | S n', String c s' => String c (take n' s')
  | _, _ => ""
  end.

(** [s[n:]] *)
Fixpoint drop (n : nat) (s : string) : string :=
  match n, s with
  | S n', String _ s' => drop n' s'
  | _, _ => s
  end.

Definition len (s : string) : Z := Z.of_nat (String.length s).

(** [strings.HasPrefix(s, prefix)] *)
Fixpoint HasPrefix (s prefix : string) {struct prefix} : bool :=
  match prefix, s with
  | "", _ => true
  | String _ _, "" => false
  | String a prefix', String b s' => Ascii.eqb a b && HasPrefix s' prefix'
  end.

(** [strings.HasSuffix(s, suffix)]:
    [len(s) >= len(suffix) && s[len(s)-len(suffix):] == suffix] *)
Definition HasSuffix (s suffix : string) : bool :=
  (len suffix <=? len s)
  && String.eqb (drop (String.length s - String.length suffix) s) suffix.

(** [strings.Index(s, substr)]: index of the first instance of [substr]
    in [s], or [-1]. *)
Fixpoint Index (s substr : string) : Z :=
  if HasPrefix s substr then 0
  else match s with
       | "" => -1
       | String _ s' =>
           let i := Index s' substr in
           if i <? 0 then -1 else i + 1
       end.

(** [strings.Contains(s, substr)] is [Index(s, substr) >= 0]. *)
Definition Contains (s substr : string) : bool := 0 <=? Index s substr.

(** [strings.IndexByte]/[IndexRune] for an ASCII rune. *)
Definition IndexRune (s : string) (r : ascii) : Z := Index s (String r "").

(** [strings.Count(s, substr)] for a non-empty [substr]: the loop
    [i := Index(s, substr); if i == -1 return n; n++; s = s[i+len(substr):]].
    Every round removes at least one byte, so [String.length s] rounds
    are enough (see [countLoop_fuel]). *)
Fixpoint countLoop (fuel : nat) (s substr : string) : nat :=
  match fuel with
  | O => O
  | S fuel' =>
      let i := Index s substr in
      if i <? 0 then O
      else S (countLoop fuel'
                (drop (Z.to_nat (i + len substr)) s) substr)
  end.

Definition Count (s substr : string) : nat :=
  countLoop (String.length s) s substr.

(** The loop of [genSplit(s, sep, 0, n)] with [n-1 = cuts] remaining
    separators to honour: [for i < n { m := Index(s, sep); if m < 0 break;
    a[i] = s[:m]; s = s[m+len(sep):]; i++ }; a[i] = s]. *)
Fixpoint splitLoop (cuts : nat) (s sep : string) : list string :=
  match cuts with
  | O => [s]
  | S cuts' =>
      let m := Index s sep in
      if m <? 0 then [s]
      else take (Z.to_nat m) s
             :: splitLoop cuts' (drop (Z.to_nat (m + len sep)) s) sep
  end.

(** [strings.Split(s, sep)] = [genSplit(s, sep, 0, -1)], which sets
    [n = Count(s, sep) + 1].  (Non-empty [sep] only: every call site
    passes a literal.) *)
Definition Split (s sep : string) : list string :=
  splitLoop (Count s sep) s sep.

(** [strings.SplitN(s, sep, n)] for [n > 0]: at most [n] pieces, the last
    one the unsplit remainder. *)
Definition SplitN (s sep : string) (n : nat) : list string :=
  match n with
  | O => []
  | S k => splitLoop (Nat.min k (String.length s)) s sep
  end.

Definition isDigit (c : ascii) : bool :=
  let n := nat_of_ascii c in (48 <=? n)%nat && (n <=? 57)%nat.

Definition maxUint64 : Z := 2 ^ 64 - 1.

(** [strconv.ParseUint(s, 10, 64)]: [None] is the syntax error (empty
    input or a byte that is not a decimal digit) or the range error
    (value above [maxUint64]). *)
Fixpoint parseDigits (acc : Z) (s : string) : option Z :=
  match s with
  | "" => Some acc
  | String c s' =>
      if isDigit c then
        let acc' := acc * 10 + (Z.of_nat (nat_of_ascii c) - 48) in
        if acc' <=? maxUint64 then parseDigits acc' s' else None
      else None
  end.

Definition ParseUint (s : string) : option Z :=
  match s with
  | "" => None
  | _ => parseDigits 0 s
  end.

(** [strconv.AppendUint(b, v, 10)] / [FormatUint(v, 10)]. *)
Definition FormatUint (v : Z) : string :=
  NilZero.string_of_uint (N.to_uint (Z.to_N v)).

End GoStrings.

Import GoStrings.

(** [uint64] arithmetic: [x++] wraps at [2^64]. *)
Definition wrap64 (z : Z) : Z := z mod 2 ^ 64.
Definition incr64 (x : Z) : Z := wrap64 (x + 1).

(* ------------------------------------------------------------------ *)
(** ** parseRepoPrefixVersionIfAny (chart_bump_versions.go) *)

Definition marker : string := "+up".

(** The result is [None] exactly where Go would panic on [versions[0]] or
    [versions[1]] (index out of range); [parse_total] shows this never
    happens. *)
Definition parseRepoPrefixVersionIfAny (unparsedVersion : string)
  : option (string * string * bool) :=
  let found := Contains unparsedVersion marker in
  if found then
    let versions := Split unparsedVersion marker in
    match nth_error versions 0, nth_error versions 1 with
    | Some repoPrefix, Some version => Some (repoPrefix, version, found)
    | _, _ => None
    end
  else Some ("", unparsedVersion, found).

(** The piece of [s] up to its first separator, all of [s] when there is
    none: the head of [Split s sep]. *)
Definition upToSep (s sep : string) : string :=
  if Index s sep <? 0 then s else take (Z.to_nat (Index s sep)) s.

(* ------------------------------------------------------------------ *)
(** ** github.com/blang/semver, as far as the package uses it

    [Make] (an alias of [Parse]), [MustParse], [String], [Compare] and
    [LT].  An absent slice is the empty list. *)

Module semver.

Record PRVersion := mkPR {
  VersionStr : string;
  VersionNum : Z;          (* uint64 *)
  IsNum : bool
}.

Record Version := mkVersion {
  Major : Z;               (* uint64 *)
  Minor : Z;               (* uint64 *)
  Patch : Z;               (* uint64 *)
  Pre : list PRVersion;
  Build : list string
}.

Inductive component := cMajor | cMinor | cPatch.

Inductive ParseError :=
| VersionStringEmpty
| NoMajorMinorPatch
| InvalidCharacters (c : component) (s : string)
| LeadingZeroes (c : component) (s : string)
| UintError (s : string)
| PrereleaseEmpty
| PrereleaseLeadingZeroes (s : string)
| PrereleaseInvalid (s : string)
| BuildMetaEmpty
| BuildMetaInvalid (s : string).

Definition numbers : string := "0123456789".
Definition alphas : string :=
  "abcdefghijklmnopqrstuvwxyzABCDEFGHIJKLMNOPQRSTUVWXYZ-".
Definition alphanum : string := alphas ++ numbers.

Fixpoint containsOnly (s set : string) : bool :=
  match s with
  | "" => true
  | String c s' => Contains set (String c "") && containsOnly s' set
  end.

Definition hasLeadingZeroes (s : string) : bool :=
  match s with
  | String c (String _ _) => Ascii.eqb c "0"%char
  | _ => false
  end.

Definition parseNumber (c : component) (s : string) : ParseError + Z :=
  if negb (containsOnly s numbers) then inl (InvalidCharacters c s)
  else if hasLeadingZeroes s then inl (LeadingZeroes c s)
  else match ParseUint s with
       | Some n => inr n
       | None => inl (UintError s)
       end.

Definition NewPRVersion (s : string) : ParseError + PRVersion :=
  if String.eqb s "" then inl PrereleaseEmpty
  else if containsOnly s numbers then
    if hasLeadingZeroes s then inl (PrereleaseLeadingZeroes s)
    else match ParseUint s with
         | Some num => inr (mkPR "" num true)
         | None => inl (UintError s)
         end
  else if containsOnly s alphanum then inr (mkPR s 0 false)
  else inl (PrereleaseInvalid s).

Definition checkBuild (str : string) : ParseError + string :=
  if String.eqb str "" then inl BuildMetaEmpty
  else if negb (containsOnly str alphanum) then inl (BuildMetaInvalid str)
  else inr str.

Fixpoint each {A B : Type} (f : A -> ParseError + B) (l : list A)
  : ParseError + list B :=
  match l with
  | [] => inr []
  | x :: l' =>
      match f x with
      | inl e => inl e
      | inr y => match each f l' with
                 | inl e => inl e
                 | inr ys => inr (y :: ys)
                 end
      end
  end.

Definition Parse (s : string) : ParseError + Version :=
  if String.eqb s "" then inl VersionStringEmpty
  else
    match SplitN s "." 3 with
    | [p0; p1; p2] =>
        match parseNumber cMajor p0 with
        | inl e => inl e
        | inr major =>
        match parseNumber cMinor p1 with
        | inl e => inl e
        | inr minor =>
            let buildIndex := IndexRune p2 "+"%char in
            let build :=
              if buildIndex =? -1 then []
              else Split (drop (Z.to_nat (buildIndex + 1)) p2) "." in
            let patchStr :=
              if buildIndex =? -1 then p2
              else take (Z.to_nat buildIndex) p2 in
            let preIndex := IndexRune patchStr "-"%char in
            let prerelease :=
              if preIndex =? -1 then []
              else Split (drop (Z.to_nat (preIndex + 1)) patchStr) "." in
            let patchStr :=
              if preIndex =? -1 then patchStr
              else take (Z.to_nat preIndex) patchStr in
            match parseNumber cPatch patchStr with
            | inl e => inl e
            | inr patch =>
            match each NewPRVersion prerelease with
            | inl e => inl e
            | inr pre =>
            match each checkBuild build with
            | inl e => inl e
            | inr bld => inr (mkVersion major minor patch pre bld)
            end end end
        end end
    | _ => inl NoMajorMinorPatch
    end.

Definition Make (s : string) : ParseError + Version := Parse s.

Definition PRString (v : PRVersion) : string :=
  if IsNum v then FormatUint (VersionNum v) else VersionStr v.

Fixpoint joinDots (l : list string) : string :=
  match l with
  | [] => ""
  | [x] => x
  | x :: l' => x ++ "." ++ joinDots l'
  end.

Definition String (v : Version) : string :=
  FormatUint (Major v) ++ "." ++ FormatUint (Minor v) ++ "."
    ++ FormatUint (Patch v)
    ++ (match Pre v with
        | [] => ""
        | _ => "-" ++ joinDots (map PRString (Pre v))
        end)
    ++ (match Build v with
        | [] => ""
        | _ => "+" ++ joinDots (Build v)
        end).

Definition cmpZ (a b : Z) : Z :=
  if a =? b then 0 else if a >? b then 1 else -1.

Definition PRCompare (v o : PRVersion) : Z :=
  if IsNum v && negb (IsNum o) then -1
  else if negb (IsNum v) && IsNum o then 1
  else if IsNum v && IsNum o then cmpZ (VersionNum v) (VersionNum o)
  else if String.eqb (VersionStr v) (VersionStr o) then 0
  else if String.ltb (VersionStr o) (VersionStr v) then 1
  else -1.

(** The loop over the common indices of [v.Pre] and [o.Pre], and the
    length comparison after it. *)
Fixpoint preCompare (v o : list PRVersion) : Z :=
  match v, o with
  | [], [] => 0
  | [], _ :: _ => -1
  | _ :: _, [] => 1
  | x :: v', y :: o' =>
      let comp := PRCompare x y in
      if comp =? 0 then preCompare v' o'
      else if comp =? 1 then 1 else -1
  end.

Definition Compare (v o : Version) : Z :=
  if negb (Major v =? Major o) then
    (if Major v >? Major o then 1 else -1)
  else if negb (Minor v =? Minor o) then
    (if Minor v >? Minor o then 1 else -1)
  else if negb (Patch v =? Patch o) then
    (if Patch v >? Patch o then 1 else -1)
  else match Pre v, Pre o with
       | [], [] => 0
       | [], _ :: _ => 1
       | _ :: _, [] => -1
       | _, _ => preCompare (Pre v) (Pre o)
       end.

Definition LT (v o : Version) : bool := Compare v o =? -1.
Definition GE (v o : Version) : bool := 0 <=? Compare v o.

End semver.

(* ------------------------------------------------------------------ *)
(** ** Types of the neighbouring packages that [auto] reads

    [options], [charts] and [lifecycle] are other packages of the module;
    only the fields that [auto] touches are kept.  A [puller.Puller] is
    represented by the [UpstreamOptions] its [GetOptions] returns, and
    [Chart.GetUpstreamVersion] by the string it returns. *)

Module options.

Record UpstreamOptions := mkUpstreamOptions {
  URL : string;
  Subdirectory : option string;       (* *string *)
  Commit : option string;             (* *string *)
  ChartRepoBranch : option string     (* *string *)
}.

Record CRDChartOptions := mkCRDChartOptions {
  TemplateDirectory : string;
  CRDDirectory : string;
  AddCRDValidationToMainChart : bool
}.

End options.

Module charts.

Record Chart := mkChart {
  Upstream : options.UpstreamOptions;
  WorkingDir : string;
  GetUpstreamVersion : string
}.

Record AdditionalChart := mkAdditionalChart {
  acUpstream : option options.UpstreamOptions;       (* *puller.Puller *)
  CRDChartOptions : option options.CRDChartOptions   (* pointer *)
}.

Record Package := mkPackage {
  Chart_ : Chart;                                    (* embedded Chart *)
  Name : string;
  Version : option semver.Version;                   (* *semver.Version *)
  PackageVersion : option Z;                         (* *int *)
  AdditionalCharts : list AdditionalChart;
  DoNotRelease : bool;
  Auto : bool;
  AutoGeneratedBumpVersion : option semver.Version   (* *semver.Version *)
}.

End charts.

Module lifecycle.

Record Asset := mkAsset { Version : string }.

(** [lifecycle.Version]: the bounds of a branch line. *)
Record Bounds := mkBounds { Min : string; Max : string }.

Record VersionRules := mkVersionRules {
  Rules : list (string * Bounds);     (* map[string]Version *)
  BranchVersion : string
}.

End lifecycle.

(** Reading a Go map: the first binding of the key, or the zero value. *)
Fixpoint mapGet {V : Type} (zero : V) (m : list (string * V)) (k : string) : V :=
  match m with
  | [] => zero
  | (k', v) :: m' => if String.eqb k' k then v else mapGet zero m' k
  end.

(* ------------------------------------------------------------------ *)
(** ** Errors of package [auto] *)

Inductive error :=
| errNotDevBranch
| errBadPackage
| errNoPackage
| errMultiplePackages
| errFalseAuto
| errPackageName
| errPackageChartVersion
| errPackageVersion
| errPackegeDoNotRelease
| errChartWorkDir
| errChartURL
| errChartRepoCommit
| errChartRepoBranch
| errChartSubDir
| errAdditionalChartWorkDir
| errCRDWorkDir
| errAdditionalChartCRDValidation
(* sentinels used by chart_bump_versions.go *)
| errChartLatestVersion
| errChartUpstreamVersion
| errChartUpstreamVersionWrong
| errBumpVersion
(* an error value produced by semver.Make *)
| errSemver (e : semver.ParseError).

(** What makes the Go runtime panic in this code. *)
Inductive panic :=
| nilDereference
| indexOutOfRange
| mustParse (s : string) (e : semver.ParseError).

(* ------------------------------------------------------------------ *)
(** ** The data of chart_bump_versions.go *)

Record version := mkV {
  txt : string;
  svr : option semver.Version         (* *semver.Version *)
}.

Record versions := mkVersions {
  latest : version;
  latestRepoPrefix : version;
  toRelease : version;
  toReleaseRepoPrefix : version
}.

Record Release := mkRelease {
  Chart : string;
  ReleaseYamlPath : string;
  ChartVersion : string
}.

Record Bump := mkBump {
  targetChart : string;
  Pkg : option charts.Package;                        (* *charts.Package *)
  releaseYaml : option Release;                       (* *Release *)
  versionRules : option lifecycle.VersionRules;       (* pointer *)
  assetsVersionsMap : list (string * list lifecycle.Asset);
  versions_ : option versions                         (* b.versions *)
}.

(** [func (v *version) updateSemver() error]: the updated receiver and the
    returned error. *)
Definition updateSemver (v : version) : version * option error :=
  match semver.Make (txt v) with
  | inl err => (v, Some (errSemver err))
  | inr newSemver => (mkV (txt v) (Some newSemver), None)
  end.

(** [func (v *version) updateTxt()]; [None] is the nil dereference of
    [v.svr]. *)
Definition updateTxt (v : version) : option version :=
  match svr v with
  | Some s => Some (mkV (semver.String s) (Some s))
  | None => None
  end.

(* ------------------------------------------------------------------ *)
(** ** A state-and-error monad for the methods of [*Bump] *)

Inductive res (A : Type) :=
| Val (a : A)
| Fail (e : error)           (* [return err] *)
| Crash (p : panic).
Arguments Val {A} a.
Arguments Fail {A} e.
Arguments Crash {A} p.

Definition M (A : Type) : Type := Bump -> Bump * res A.

Definition ret {A} (a : A) : M A := fun b => (b, Val a).
Definition fail {A} (e : error) : M A := fun b => (b, Fail e).
Definition crash {A} (p : panic) : M A := fun b => (b, Crash p).

Definition bind {A B} (m : M A) (k : A -> M B) : M B :=
  fun b =>
    match m b with
    | (b', Val a) => k a b'
    | (b', Fail e) => (b', Fail e)
    | (b', Crash p) => (b', Crash p)
    end.

Declare Scope go_scope.
Delimit Scope go_scope with go.
Notation "x <- m ;; k" := (bind m (fun x => k))
  (at level 61, m at next level, right associativity) : go_scope.
Notation "m ;; k" := (bind m (fun _ => k))
  (at level 61, right associativity) : go_scope.
Open Scope go_scope.

Definition get : M Bump := fun b => (b, Val b).
Definition put (b' : Bump) : M unit := fun _ => (b', Val tt).

(** Dereference of a pointer. *)
Definition deref {A} (p : option A) : M A :=
  match p with
  | Some a => ret a
  | None => crash nilDereference
  end.

Definition nil : M unit := ret tt.

(** The four [*version] cells behind [b.versions]. *)
Inductive cell := cLatest | cLatestRepoPrefix | cToRelease | cToReleaseRepoPrefix.

Definition readCell (vs : versions) (c : cell) : version :=
  match c with
  | cLatest => latest vs
  | cLatestRepoPrefix => latestRepoPrefix vs
  | cToRelease => toRelease vs
  | cToReleaseRepoPrefix => toReleaseRepoPrefix vs
  end.

Definition writeCell (vs : versions) (c : cell) (v : version) : versions :=
  match c with
  | cLatest =>
      mkVersions v (latestRepoPrefix vs) (toRelease vs) (toReleaseRepoPrefix vs)
  | cLatestRepoPrefix =>
      mkVersions (latest vs) v (toRelease vs) (toReleaseRepoPrefix vs)
  | cToRelease =>
      mkVersions (latest vs) (latestRepoPrefix vs) v (toReleaseRepoPrefix vs)
  | cToReleaseRepoPrefix =>
      mkVersions (latest vs) (latestRepoPrefix vs) (toRelease vs) v
  end.

Definition setVersions (b : Bump) (vs : option versions) : Bump :=
  mkBump (targetChart b) (Pkg b) (releaseYaml b) (versionRules b)
         (assetsVersionsMap b) vs.

(** [b.versions.c] *)
Definition load (c : cell) : M version :=
  b <- get ;; vs <- deref (versions_ b) ;; ret (readCell vs c).

(** [*b.versions.c = v] *)
Definition store (c : cell) (v : version) : M unit :=
  b <- get ;; vs <- deref (versions_ b) ;;
  put (setVersions b (Some (writeCell vs c v))).

(** [b.versions.c.txt = s] *)
Definition setTxt (c : cell) (s : string) : M unit :=
  v <- load c ;; store c (mkV s (svr v)).

(** [*b.versions.c.svr], a nil dereference when the pointer is unset *)
Definition loadSvr (c : cell) : M semver.Version :=
  v <- load c ;; deref (svr v).

(** [*b.versions.c.svr = s] through the existing pointer *)
Definition storeSvr (c : cell) (s : semver.Version) : M unit :=
  v <- load c ;; _ <- deref (svr v) ;; store c (mkV (txt v) (Some s)).

(** [if err := b.versions.c.updateSemver(); err != nil { return err }] *)
Definition callUpdateSemver (c : cell) : M unit :=
  v <- load c ;;
  let (v', err) := updateSemver v in
  store c v' ;;
  match err with
  | Some e => fail e
  | None => nil
  end.

(** [b.versions.c.updateTxt()] *)
Definition callUpdateTxt (c : cell) : M unit :=
  v <- load c ;;
  match updateTxt v with
  | Some v' => store c v'
  | None => crash nilDereference
  end.

(* ------------------------------------------------------------------ *)
(** ** chart_bump_versions.go: the methods of [*Bump] *)

Definition emptyVersion : version := mkV "" None.

(** [s[0]] of a slice *)
Definition first {A} (s : list A) : M A :=
  match s with
  | x :: _ => ret x
  | [] => crash indexOutOfRange
  end.

Definition callParseRepoPrefixVersionIfAny (s : string)
  : M (string * string * bool) :=
  match parseRepoPrefixVersionIfAny s with
  | Some r => ret r
  | None => crash indexOutOfRange
  end.

Definition loadVersions : M unit :=
  b <- get ;;
  put (setVersions b
         (Some (mkVersions emptyVersion emptyVersion emptyVersion emptyVersion))) ;;
  asset <- first (mapGet [] (assetsVersionsMap b) (targetChart b)) ;;
  let latestUnparsedVersion := lifecycle.Version asset in
  if String.eqb latestUnparsedVersion "" then fail errChartLatestVersion
  else
    r <- callParseRepoPrefixVersionIfAny latestUnparsedVersion ;;
    let '(latestRepoPrefix, latestVersion, found) := r in
    (if found : bool then
       setTxt cLatestRepoPrefix latestRepoPrefix ;;
       callUpdateSemver cLatestRepoPrefix
     else nil) ;;
    setTxt cLatest latestVersion ;;
    callUpdateSemver cLatest ;;
    pkg <- deref (Pkg b) ;;
    setTxt cToRelease (charts.GetUpstreamVersion (charts.Chart_ pkg)) ;;
    tr <- load cToRelease ;;
    if String.eqb (txt tr) "" then fail errChartUpstreamVersion
    else
      callUpdateSemver cToRelease ;;
      r' <- callParseRepoPrefixVersionIfAny (txt tr) ;;
      let '(_, _, found') := r' in
      if found' : bool then fail errChartUpstreamVersionWrong
      else
        t <- loadSvr cToRelease ;;
        l <- loadSvr cLatest ;;
        if semver.LT t l then fail errBumpVersion else nil.

Definition withPatch (s : semver.Version) (p : Z) : semver.Version :=
  semver.mkVersion (semver.Major s) (semver.Minor s) p
                   (semver.Pre s) (semver.Build s).

Definition withMinor (s : semver.Version) (m : Z) : semver.Version :=
  semver.mkVersion (semver.Major s) m (semver.Patch s)
                   (semver.Pre s) (semver.Build s).

Definition applyVersionRules : M unit :=
  b <- get ;;
  vr <- deref (versionRules b) ;;
  let repoPrefixVersionRule :=
    lifecycle.Min (mapGet (lifecycle.mkBounds "" "") (lifecycle.Rules vr)
                          (lifecycle.BranchVersion vr)) in
  match semver.Make repoPrefixVersionRule with
  | inl err => fail (errSemver err)
  | inr repoPrefixSemverRule =>
      lrp <- load cLatestRepoPrefix ;;
      branchLine <-
        (if String.eqb (txt lrp) "" then ret true
         else s <- deref (svr lrp) ;;
              ret (negb (semver.Major repoPrefixSemverRule =? semver.Major s))) ;;
      if branchLine : bool then
        setTxt cToReleaseRepoPrefix repoPrefixVersionRule ;;
        callUpdateSemver cToReleaseRepoPrefix ;;
        nil
      else
        setTxt cToReleaseRepoPrefix (txt lrp) ;;
        callUpdateSemver cToReleaseRepoPrefix ;;
        t <- loadSvr cToRelease ;;
        l <- loadSvr cLatest ;;
        let majorBump := semver.Major t >? semver.Major l in
        let minorBump := semver.Minor t >? semver.Minor l in
        let patchBump := semver.Patch t >? semver.Patch l in
        (if patchBump && negb majorBump && negb minorBump then
           p <- loadSvr cToReleaseRepoPrefix ;;
           storeSvr cToReleaseRepoPrefix (withPatch p (incr64 (semver.Patch p)))
         else nil) ;;
        (if minorBump || majorBump then
           p <- loadSvr cToReleaseRepoPrefix ;;
           storeSvr cToReleaseRepoPrefix (withMinor p (incr64 (semver.Minor p))) ;;
           p <- loadSvr cToReleaseRepoPrefix ;;
           storeSvr cToReleaseRepoPrefix (withPatch p 0)
         else nil) ;;
        callUpdateTxt cToReleaseRepoPrefix ;;
        nil
  end.

Definition setChartVersion (r : Release) (v : string) : Release :=
  mkRelease (Chart r) (ReleaseYamlPath r) v.

Definition setAutoGeneratedBumpVersion (p : charts.Package)
    (v : option semver.Version) : charts.Package :=
  charts.mkPackage (charts.Chart_ p) (charts.Name p) (charts.Version p)
    (charts.PackageVersion p) (charts.AdditionalCharts p)
    (charts.DoNotRelease p) (charts.Auto p) v.

Definition setReleaseYaml (b : Bump) (r : option Release) : Bump :=
  mkBump (targetChart b) (Pkg b) r (versionRules b)
         (assetsVersionsMap b) (versions_ b).

Definition setPkg (b : Bump) (p : option charts.Package) : Bump :=
  mkBump (targetChart b) p (releaseYaml b) (versionRules b)
         (assetsVersionsMap b) (versions_ b).

Definition calculateNextVersion : M unit :=
  loadVersions ;;
  applyVersionRules ;;
  trp <- load cToReleaseRepoPrefix ;;
  tr <- load cToRelease ;;
  let targetVersion := txt trp ++ "+up" ++ txt tr in
  match semver.Parse targetVersion with      (* semver.MustParse *)
  | inl e => crash (mustParse targetVersion e)
  | inr targetSemver =>
      b <- get ;;
      ry <- deref (releaseYaml b) ;;
      put (setReleaseYaml b (Some (setChartVersion ry targetVersion))) ;;
      b <- get ;;
      pkg <- deref (Pkg b) ;;
      put (setPkg b (Some (setAutoGeneratedBumpVersion pkg (Some targetSemver)))) ;;
      nil
  end.

(* ------------------------------------------------------------------ *)
(** ** Validation of package.yaml *)

Definition isSome {A} (o : option A) : bool :=
  match o with Some _ => true | None => false end.

Definition checkUpstreamOptions (o : options.UpstreamOptions) : option error :=
  if negb (HasSuffix (options.URL o) ".git") then Some errChartURL
  else if isSome (options.Commit o) then Some errChartRepoCommit
  else if negb (isSome (options.ChartRepoBranch o)) then Some errChartRepoBranch
  else if negb (isSome (options.Subdirectory o)) then Some errChartSubDir
  else None.

(** The inner [switch] on [additionalChart.CRDChartOptions]. *)
Definition checkCRDChartOptions (c : options.CRDChartOptions) : option error :=
  if String.eqb (options.TemplateDirectory c) "" then Some errAdditionalChartWorkDir
  else if String.eqb (options.CRDDirectory c) "" then Some errCRDWorkDir
  else if negb (options.AddCRDValidationToMainChart c)
       then Some errAdditionalChartCRDValidation
  else None.

Definition returnIf (e : option error) : M unit :=
  match e with
  | Some err => fail err
  | None => nil
  end.

(** The [for _, additionalChart := range b.Pkg.AdditionalCharts] loop. *)
Fixpoint rangeAdditionalCharts (l : list charts.AdditionalChart) : M unit :=
  match l with
  | [] => nil
  | additionalChart :: rest =>
      additionalUpstream <- deref (charts.acUpstream additionalChart) ;;
      returnIf (checkUpstreamOptions additionalUpstream) ;;
      match charts.CRDChartOptions additionalChart with
      | Some crd => returnIf (checkCRDChartOptions crd)
      | None => nil
      end ;;
      rangeAdditionalCharts rest
  end.

Definition parsePackageYaml (packages : list charts.Package) : M unit :=
  match packages with
  | [] => fail errNoPackage
  | _ :: _ :: _ => fail errMultiplePackages
  | [pkg] =>
      b <- get ;;
      put (setPkg b (Some pkg)) ;;
      if negb (charts.Auto pkg) then fail errFalseAuto
      else if String.eqb (charts.Name pkg) "" then fail errPackageName
      else if isSome (charts.Version pkg) then fail errPackageChartVersion
      else if isSome (charts.PackageVersion pkg) then fail errPackageVersion
      else if charts.DoNotRelease pkg then fail errPackegeDoNotRelease
      else if String.eqb (charts.WorkingDir (charts.Chart_ pkg)) ""
           then fail errChartWorkDir
      else
        returnIf (checkUpstreamOptions (charts.Upstream (charts.Chart_ pkg))) ;;
        rangeAdditionalCharts (charts.AdditionalCharts pkg) ;;
        nil
  end.

(* ------------------------------------------------------------------ *)
(** ** Concrete inputs used by the examples *)

Definition upstreamOK : options.UpstreamOptions :=
  options.mkUpstreamOptions "https://github.com/org/chart.git"
    (Some "charts/chart") None (Some "main").

Definition pkgFor (upstreamVersion : string) : charts.Package :=
  charts.mkPackage (charts.mkChart upstreamOK "charts" upstreamVersion)
    "chart" None None [] false true None.

(** A receiver as [SetupBump] leaves it: one published version of the
    target chart, the upstream version to release, and the minimum
    repo-prefix version of the branch line. *)
Definition bumpFor (published upstreamVersion ruleMin : string) : Bump :=
  mkBump "chart"
    (Some (pkgFor upstreamVersion))
    (Some (mkRelease "chart" "release.yaml" ""))
    (Some (lifecycle.mkVersionRules
             [("2.9", lifecycle.mkBounds ruleMin "")] "2.9"))
    [("chart", [lifecycle.mkAsset published])]
    None.

(** The caller-visible outputs of [calculateNextVersion]. *)
Definition chartVersionOf (b : Bump) : option string :=
  option_map ChartVersion (releaseYaml b).

Definition autoGeneratedOf (b : Bump) : option (option semver.Version) :=
  option_map charts.AutoGeneratedBumpVersion (Pkg b).

Definition repoPrefixOf (b : Bump) : option version :=
  option_map toReleaseRepoPrefix (versions_ b).


(* ------------------------------------------------------------------ *)
(** ** Vocabulary of the statements *)

(** The inputs [loadVersions] reads: [b.assetsVersionsMap[b.targetChart][0].Version]
    and [b.Pkg.Chart.GetUpstreamVersion()]. *)
Definition latestPublished (b : Bump) : option string :=
  match mapGet [] (assetsVersionsMap b) (targetChart b) with
  | asset :: _ => Some (lifecycle.Version asset)
  | [] => None
  end.

Definition upstreamVersion (b : Bump) : option string :=
  option_map (fun p => charts.GetUpstreamVersion (charts.Chart_ p)) (Pkg b).

(** The input [applyVersionRules] reads:
    [b.versionRules.Rules[b.versionRules.BranchVersion].Min]. *)
Definition ruleMin (b : Bump) : option string :=
  option_map
    (fun vr => lifecycle.Min (mapGet (lifecycle.mkBounds "" "")
                                (lifecycle.Rules vr) (lifecycle.BranchVersion vr)))
    (versionRules b).

(** [Loaded b vs]: every check of [loadVersions] before the regression
    check passes on the inputs of [b], and [vs] holds what has been loaded
    by then. *)
Definition Loaded (b : Bump) (vs : versions) : Prop :=
  exists pub lrp lv found up l t,
    latestPublished b = Some pub /\ pub <> "" /\
    parseRepoPrefixVersionIfAny pub = Some (lrp, lv, found) /\
    semver.Make lv = inr l /\
    upstreamVersion b = Some up /\ up <> "" /\
    semver.Make up = inr t /\
    Contains up marker = false /\
    latest vs = mkV lv (Some l) /\
    toRelease vs = mkV up (Some t) /\
    toReleaseRepoPrefix vs = emptyVersion /\
    (if found : bool
     then exists lp, semver.Make lrp = inr lp /\
                     latestRepoPrefix vs = mkV lrp (Some lp)
     else latestRepoPrefix vs = emptyVersion).

(** The bare (upstream-only) versions the regression check compares:
    [t] is [toRelease], [l] is [latest]. *)
Definition bareVersions (b : Bump) (t l : semver.Version) : Prop :=
  exists vs, Loaded b vs /\ svr (toRelease vs) = Some t /\ svr (latest vs) = Some l.

(** The two kinds of upstream change [applyVersionRules] tells apart. *)
Definition patchOnly (t l : semver.Version) : bool :=
  (semver.Patch t >? semver.Patch l)
  && negb (semver.Major t >? semver.Major l)
  && negb (semver.Minor t >? semver.Minor l).

Definition minorOrMajor (t l : semver.Version) : bool :=
  (semver.Minor t >? semver.Minor l) || (semver.Major t >? semver.Major l).

(** The state in which [applyVersionRules] takes its continuation path:
    the rule parses to [r]; a latest repo-prefix is present, its text and
    its parsed form [c] agree (as [loadVersions] leaves them), and its
    major is the major of [r]; the bare versions are [t] and [l]. *)
Definition Continuation (b : Bump) (vs : versions)
    (r c t l : semver.Version) : Prop :=
  versions_ b = Some vs /\
  (exists rule, ruleMin b = Some rule /\ semver.Make rule = inr r) /\
  txt (latestRepoPrefix vs) <> "" /\
  svr (latestRepoPrefix vs) = Some c /\
  semver.Make (txt (latestRepoPrefix vs)) = inr c /\
  semver.Major r = semver.Major c /\
  svr (toRelease vs) = Some t /\
  svr (latest vs) = Some l.

(** The state in which it takes the branch-line transition. *)
Definition Transition (b : Bump) (vs : versions)
    (rule : string) (r : semver.Version) : Prop :=
  versions_ b = Some vs /\
  ruleMin b = Some rule /\ semver.Make rule = inr r /\
  (txt (latestRepoPrefix vs) = "" \/
   exists lp, svr (latestRepoPrefix vs) = Some lp /\
              semver.Major r <> semver.Major lp).

(** The repo-prefix that the continuation path computes from the prefix
    [c] carried forward. *)
Definition bumped (c t l : semver.Version) : semver.Version :=
  if patchOnly t l then withPatch c (incr64 (semver.Patch c))
  else if minorOrMajor t l then
    withPatch (withMinor c (incr64 (semver.Minor c))) 0
  else c.

(** The receiver after a run of [loadVersions] on [bumpFor]. *)
Definition loadedFor (published upstreamVersion ruleMin : string) : Bump :=
  fst (loadVersions (bumpFor published upstreamVersion ruleMin)).

(** A version without pre-release and build parts. *)
Definition v3 (major minor patch : Z) : semver.Version :=
  semver.mkVersion major minor patch [] [].

(** The text and the parsed form of the repo-prefix a method leaves. *)
Definition prefixTxt (b : Bump) : option string :=
  option_map txt (repoPrefixOf b).

Definition prefixSvr (b : Bump) : option semver.Version :=
  match repoPrefixOf b with
  | Some v => svr v
  | None => None
  end.

(* ------------------------------------------------------------------ *)
(** ** The validator as an ordered list of checks *)

(** One check: its error when the field is [bad]. *)
Definition check (bad : bool) (e : error) : option error :=
  if bad then Some e else None.

(** First failure wins. *)
Fixpoint firstFailure (checks : list (option error)) : option error :=
  match checks with
  | [] => None
  | Some e :: _ => Some e
  | None :: rest => firstFailure rest
  end.

Definition rootChecks (pkg : charts.Package) : list (option error) :=
  [ check (negb (charts.Auto pkg)) errFalseAuto;
    check (String.eqb (charts.Name pkg) "") errPackageName;
    check (isSome (charts.Version pkg)) errPackageChartVersion;
    check (isSome (charts.PackageVersion pkg)) errPackageVersion;
    check (charts.DoNotRelease pkg) errPackegeDoNotRelease;
    check (String.eqb (charts.WorkingDir (charts.Chart_ pkg)) "") errChartWorkDir ].

Definition upstreamChecks (o : options.UpstreamOptions) : list (option error) :=
  [ check (negb (HasSuffix (options.URL o) ".git")) errChartURL;
    check (isSome (options.Commit o)) errChartRepoCommit;
    check (negb (isSome (options.ChartRepoBranch o))) errChartRepoBranch;
    check (negb (isSome (options.Subdirectory o))) errChartSubDir ].

Definition crdChecks (c : options.CRDChartOptions) : list (option error) :=
  [ check (String.eqb (options.TemplateDirectory c) "") errAdditionalChartWorkDir;
    check (String.eqb (options.CRDDirectory c) "") errCRDWorkDir;
    check (negb (options.AddCRDValidationToMainChart c))
          errAdditionalChartCRDValidation ].

Definition additionalUpstreamChecks (a : charts.AdditionalChart)
  : list (option error) :=
  match charts.acUpstream a with
  | Some o => upstreamChecks o
  | None => []
  end.

Definition additionalCRDChecks (a : charts.AdditionalChart)
  : list (option error) :=
  match charts.CRDChartOptions a with
  | Some c => crdChecks c
  | None => []
  end.

(** The order of the checks in the words of the specification: the root
    fields, the upstream check of the primary and of each additional chart,
    then the CRD options of each additional chart that declares them. *)
Definition checksInSpecOrder (pkg : charts.Package) : list (option error) :=
  (rootChecks pkg
   ++ upstreamChecks (charts.Upstream (charts.Chart_ pkg))
   ++ flat_map additionalUpstreamChecks (charts.AdditionalCharts pkg)
   ++ flat_map additionalCRDChecks (charts.AdditionalCharts pkg))%list.

(** The order in which [parsePackageYaml] runs them: each additional chart
    has its upstream check and then its CRD options checked before the next
    additional chart is looked at. *)
Definition checksInCodeOrder (pkg : charts.Package) : list (option error) :=
  (rootChecks pkg
   ++ upstreamChecks (charts.Upstream (charts.Chart_ pkg))
   ++ flat_map (fun a => additionalUpstreamChecks a ++ additionalCRDChecks a)
        (charts.AdditionalCharts pkg))%list.

(** What a validator returns for the outcome of its checks. *)
Definition verdict (e : option error) : res unit :=
  match e with
  | Some err => Fail err
  | None => Val tt
  end.

(** The error identities the checks can return, in the order of the
    checks. *)
Definition validatorErrors : list error :=
  [ errFalseAuto; errPackageName; errPackageChartVersion; errPackageVersion;
    errPackegeDoNotRelease; errChartWorkDir;
    errChartURL; errChartRepoCommit; errChartRepoBranch; errChartSubDir;
    errAdditionalChartWorkDir; errCRDWorkDir; errAdditionalChartCRDValidation ].

(** Every additional chart has an upstream ([additionalChart.Upstream] is
    not nil). *)
Definition upstreamsPresent (pkg : charts.Package) : Prop :=
  Forall (fun a => charts.acUpstream a <> None) (charts.AdditionalCharts pkg).

(** A receiver before [parsePackageYaml] has run. *)
Definition emptyBump : Bump := mkBump "chart" None None None [] None.

Definition crdOK : options.CRDChartOptions :=
  options.mkCRDChartOptions "crd-template" "crds" true.

(** A package with two additional charts: the first has CRD options with
    an empty template directory, the second an upstream URL without the
    [.git] suffix. *)
Definition pkgTwoAdditional : charts.Package :=
  charts.mkPackage (charts.mkChart upstreamOK "charts" "1.2.4")
    "chart" None None
    [ charts.mkAdditionalChart (Some upstreamOK)
        (Some (options.mkCRDChartOptions "" "crds" true));
      charts.mkAdditionalChart
        (Some (options.mkUpstreamOptions "https://github.com/org/crd"
                 (Some "charts/crd") None (Some "main")))
        (Some crdOK) ]
    false true None.

(** A package that passes every check. *)
Definition pkgValid : charts.Package :=
  charts.mkPackage (charts.mkChart upstreamOK "charts" "1.2.4")
    "chart" None None
    [ charts.mkAdditionalChart (Some upstreamOK) (Some crdOK) ]
    false true None.

(* ------------------------------------------------------------------ *)
(** ** The rest of the package: branch and package names *)

(** [strings.TrimPrefix(s, prefix)] *)
Definition TrimPrefix (s prefix : string) : string :=
  if HasPrefix s prefix then drop (String.length prefix) s else s.

(** [func parseBranchVersion(targetBranch string) (string, error)] *)
Definition parseBranchVersion (targetBranch : string) : string * option error :=
  if negb (HasPrefix targetBranch "dev-v") then ("", Some errNotDevBranch)
  else (TrimPrefix targetBranch "dev-v", None).

Definition setTargetChart (b : Bump) (c : string) : Bump :=
  mkBump c (Pkg b) (releaseYaml b) (versionRules b)
         (assetsVersionsMap b) (versions_ b).

(** [s[i]] of a slice of strings *)
Definition index (s : list string) (i : nat) : M string :=
  match nth_error s i with
  | Some x => ret x
  | None => crash indexOutOfRange
  end.

(** [func (b *Bump) parseChartFromPackage(targetPackage string) error] *)
Definition parseChartFromPackage (targetPackage : string) : M unit :=
  let parts := Split targetPackage "/" in
  if Nat.eqb (List.length parts) 1 then
    part <- index parts 0 ;;
    b <- get ;;
    put (setTargetChart b part) ;;
    nil
  else if Nat.ltb 1 (List.length parts) && Nat.leb (List.length parts) 4 then
    part <- index parts (List.length parts - 1) ;;
    b <- get ;;
    put (setTargetChart b part) ;;
    nil
  else fail errBadPackage.

(** [func (b *Bump) BumpChart() error]: every step is still to be written. *)
Definition BumpChart : M unit := nil.

(* ------------------------------------------------------------------ *)
(** ** What an outcome of [loadVersions] says about its inputs *)

(** The upstream part of the published version, as [loadVersions] cuts
    it: the text after the marker when there is one, the whole text
    otherwise; and the repo-prefix part when there is a marker. *)
Definition publishedParts (b : Bump) : option (string * string * bool) :=
  match latestPublished b with
  | Some pub => parseRepoPrefixVersionIfAny pub
  | None => None
  end.

Definition loadVersionsMeaning (b : Bump) (r : res unit) : Prop :=
  match r with
  | Val _ => exists t l, bareVersions b t l /\ semver.LT t l = false
  | Fail errChartLatestVersion => latestPublished b = Some ""
  | Fail errChartUpstreamVersion => upstreamVersion b = Some ""
  | Fail errChartUpstreamVersionWrong =>
      exists up t, upstreamVersion b = Some up /\ semver.Make up = inr t /\
                   Contains up marker = true
  | Fail errBumpVersion => exists t l, bareVersions b t l /\ semver.LT t l = true
  | Fail (errSemver e) =>
      exists lrp lv found,
        publishedParts b = Some (lrp, lv, found) /\
        ((found = true /\ semver.Make lrp = inl e) \/
         semver.Make lv = inl e \/
         exists up, upstreamVersion b = Some up /\ semver.Make up = inl e)
  | Fail _ => False
  | Crash indexOutOfRange => latestPublished b = None
  | Crash nilDereference => Pkg b = None
  | Crash (mustParse _ _) => False
  end.

(** A [version] whose text and parsed form agree. *)
Definition synced (v : version) : Prop :=
  exists s, semver.Make (txt v) = inr s /\ svr v = Some s.

(** A receiver whose branch line has no entry in the rules. *)
Definition bumpWithoutRule : Bump :=
  mkBump "chart"
    (Some (pkgFor "1.2.4"))
    (Some (mkRelease "chart" "release.yaml" ""))
    (Some (lifecycle.mkVersionRules
             [("2.9", lifecycle.mkBounds "104.0.0" "")] "2.10"))
    [("chart", [lifecycle.mkAsset "104.2.0+up1.2.3"])]
    None.

(* ------------------------------------------------------------------ *)
(** ** What the validator accepts *)

Definition upstreamAccepted (o : options.UpstreamOptions) : Prop :=
  HasSuffix (options.URL o) ".git" = true /\
  options.Commit o = None /\
  options.ChartRepoBranch o <> None /\
  options.Subdirectory o <> None.

Definition crdAccepted (c : options.CRDChartOptions) : Prop :=
  options.TemplateDirectory c <> "" /\
  options.CRDDirectory c <> "" /\
  options.AddCRDValidationToMainChart c = true.

Definition additionalAccepted (a : charts.AdditionalChart) : Prop :=
  (exists o, charts.acUpstream a = Some o /\ upstreamAccepted o) /\
  (forall c, charts.CRDChartOptions a = Some c -> crdAccepted c).

Definition packageAccepted (pkg : charts.Package) : Prop :=
  charts.Auto pkg = true /\
  charts.Name pkg <> "" /\
  charts.Version pkg = None /\
  charts.PackageVersion pkg = None /\
  charts.DoNotRelease pkg = false /\
  charts.WorkingDir (charts.Chart_ pkg) <> "" /\
  upstreamAccepted (charts.Upstream (charts.Chart_ pkg)) /\
  Forall additionalAccepted (charts.AdditionalCharts pkg).

(* ------------------------------------------------------------------ *)
(** ** SetupBump

    [SetupBump] calls three functions of other packages that read the
    repository on disk: [lifecycle.InitDependencies] (on
    [filesystem.GetFilesystem(repoRoot)]), [charts.GetPackages] and
    [filesystem.GetAbsPath] (on the release.yaml path).  They are taken as
    parameters, with their errors as an arbitrary type.  The field
    [configOptions], which [SetupBump] stores and nothing here reads, is
    not part of [Bump]. *)

Section Setup.

Variable ExtError : Type.
Variable RootFs : Type.

(** The fields of [lifecycle.Dependencies] that [SetupBump] reads. *)
Record Dependencies := mkDependencies {
  VR : option lifecycle.VersionRules;                  (* *VersionRules *)
  AssetsVersionsMap : list (string * list lifecycle.Asset);
  RootFs_ : RootFs
}.

Variable InitDependencies : string -> string -> string -> ExtError + Dependencies.
Variable GetPackages : string -> string -> ExtError + list charts.Package.
Variable GetAbsPath : RootFs -> string.

Inductive setupError :=
| ownError (e : error)
| externalError (e : ExtError)
| failureAtSetupBump (e : ExtError).    (* fmt.Errorf("failure at SetupBump: %w ", err) *)

(** What a call of [SetupBump] ends in: its two results, or a panic. *)
Inductive setupOutcome :=
| Returned (bump : option Bump) (err : option setupError)
| Panicked (p : panic).

Definition setDependencies (b : Bump) (d : Dependencies) : Bump :=
  mkBump (targetChart b) (Pkg b) (releaseYaml b) (VR d)
         (AssetsVersionsMap d) (versions_ b).

(** [&Bump{configOptions: chScriptOpts}] *)
Definition newBump : Bump := mkBump "" None None None [] None.

Definition SetupBump (repoRoot targetPackage targetBranch : string)
  : setupOutcome :=
  match parseBranchVersion targetBranch with
  | (_, Some err) => Returned None (Some (ownError err))
  | (branch, None) =>
      match parseChartFromPackage targetPackage newBump with
      | (bump, Fail err) => Returned (Some bump) (Some (ownError err))
      | (_, Crash p) => Panicked p
      | (bump, Val _) =>
          match InitDependencies repoRoot branch (targetChart bump) with
          | inl err => Returned (Some bump) (Some (failureAtSetupBump err))
          | inr dependencies =>
              let bump := setDependencies bump dependencies in
              match GetPackages repoRoot targetPackage with
              | inl err => Returned None (Some (externalError err))
              | inr packages =>
                  match parsePackageYaml packages bump with
                  | (bump, Fail err) => Returned (Some bump) (Some (ownError err))
                  | (_, Crash p) => Panicked p
                  | (bump, Val _) =>
                      let releaseYamlPath := GetAbsPath (RootFs_ dependencies) in
                      if String.eqb releaseYamlPath "" then
                        (* [return bump, err] with the outer [err], nil here *)
                        Returned (Some bump) None
                      else
                        Returned
                          (Some (setReleaseYaml bump
                                   (Some (mkRelease (targetChart bump)
                                            releaseYamlPath ""))))
                          None
                  end
              end
          end
      end
  end.

End Setup.

Arguments mkDependencies {RootFs} _ _ _.
Arguments VR {RootFs} _.
Arguments AssetsVersionsMap {RootFs} _.
Arguments RootFs_ {RootFs} _.
Arguments ownError {ExtError} _.
Arguments externalError {ExtError} _.
Arguments failureAtSetupBump {ExtError} _.
Arguments Returned {ExtError} _ _.
Arguments Panicked {ExtError} _.
Arguments setDependencies {RootFs} _ _.
Arguments SetupBump {ExtError RootFs} _ _ _ _ _ _.

(** A repository whose reads succeed: rules with minimum ["104.0.0"] for the
    branch line, one published version, one valid package, and the given
    release.yaml path. *)
Definition repoDependencies (branch : string) : Dependencies unit :=
  mkDependencies
    (Some (lifecycle.mkVersionRules
             [(branch, lifecycle.mkBounds "104.0.0" "")] branch))
    [("chart", [lifecycle.mkAsset "104.2.0+up1.2.3"])]
    tt.


(** The number of bytes [c] in [s]. *)
Fixpoint countByte (c : ascii) (s : string) : nat :=
  match s with
  | "" => O
  | String x s' => ((if Ascii.eqb x c then 1 else 0) + countByte c s')%nat
  end.
(* ================================================================== *)
(** * Properties *)

(* ------------------------------------------------------------------ *)
(** ** Strings *)

Section StringFacts.

Local Open Scope nat_scope.

Lemma take_app (a x : string) : take (String.length a) (a ++ x) = a.
Proof. induction a as [|c a IH]; simpl; [now destruct x | now rewrite IH]. Qed.

Lemma drop_app (a x : string) : drop (String.length a) (a ++ x) = x.
Proof. induction a as [|c a IH]; simpl; [now destruct x | exact IH]. Qed.

Lemma length_app (a x : string) :
  String.length (a ++ x) = String.length a + String.length x.
Proof. induction a as [|c a IH]; simpl; [reflexivity | now rewrite IH]. Qed.

Lemma take_drop (n : nat) (s : string) : (take n s ++ drop n s)%string = s.
Proof.
  revert s; induction n as [|n IH]; intros [|c s]; simpl; try reflexivity.
  now rewrite IH.
Qed.

Lemma drop_drop (n m : nat) (s : string) : drop n (drop m s) = drop (m + n) s.
Proof.
  revert s; induction m as [|m IH]; intros s; simpl; [reflexivity|].
  destruct s as [|c s]; [now destruct n | apply IH].
Qed.

Lemma length_drop (n : nat) (s : string) :
  String.length (drop n s) = String.length s - n.
Proof.
  revert s; induction n as [|n IH]; intros [|c s]; simpl; try reflexivity.
  apply IH.
Qed.

Lemma HasPrefix_app (s sep x : string) :
  HasPrefix s sep = true -> HasPrefix (s ++ x) sep = true.
Proof.
  revert s; induction sep as [|a sep IH]; intros s H; [reflexivity|].
  destruct s as [|b s]; simpl in *; [discriminate|].
  apply andb_true_iff in H as [H1 H2]. now rewrite H1, (IH _ H2).
Qed.

Lemma HasPrefix_take (n : nat) (s sep : string) :
  HasPrefix (take n s) sep = true -> HasPrefix s sep = true.
Proof.
  intros H. rewrite <- (take_drop n s). now apply HasPrefix_app.
Qed.

Lemma HasPrefix_self (sep x : string) : HasPrefix (sep ++ x) sep = true.
Proof.
  induction sep as [|a sep IH]; simpl; [reflexivity|].
  now rewrite Ascii.eqb_refl, IH.
Qed.

Lemma HasPrefix_split (s sep : string) :
  HasPrefix s sep = true -> s = (sep ++ drop (String.length sep) s)%string.
Proof.
  revert s; induction sep as [|a sep IH]; intros s H; simpl.
  - now destruct s.
  - destruct s as [|b s]; simpl in H; [discriminate|].
    apply andb_true_iff in H as [H1 H2].
    apply Ascii.eqb_eq in H1; subst b. simpl. f_equal. now apply IH.
Qed.

End StringFacts.

Lemma Index_lower (s sep : string) : -1 <= Index s sep.
Proof.
  induction s as [|c s IH]; simpl.
  - destruct (HasPrefix "" sep); lia.
  - destruct (HasPrefix (String c s) sep); [lia|].
    destruct (Index s sep <? 0) eqn:E; [lia|]. apply Z.ltb_ge in E. lia.
Qed.

Lemma Index_upper (s sep : string) : Index s sep <= len s.
Proof.
  unfold len. induction s as [|c s IH]; simpl String.length.
  - simpl. destruct (HasPrefix "" sep); lia.
  - simpl Index. destruct (HasPrefix (String c s) sep); [lia|].
    destruct (Index s sep <? 0) eqn:E; lia.
Qed.

Lemma Index_empty (sep : string) : sep <> "" -> Index "" sep = -1.
Proof. destruct sep; [congruence | reflexivity]. Qed.

(** A found index really is an occurrence: [s = s[:i] ++ sep ++ s[i+len(sep):]]. *)
Lemma Index_split (s sep : string) :
  0 <= Index s sep ->
  s = take (Z.to_nat (Index s sep)) s ++ sep
        ++ drop (Z.to_nat (Index s sep + len sep)) s.
Proof.
  unfold len. induction s as [|c s IH]; simpl Index.
  - destruct (HasPrefix "" sep) eqn:E; [|lia]. intros _.
    destruct sep; [reflexivity | discriminate].
  - destruct (HasPrefix (String c s) sep) eqn:E.
    + intros _. rewrite Z.add_0_l, Nat2Z.id. simpl take.
      now apply HasPrefix_split.
    + destruct (Index s sep <? 0) eqn:E'; [lia|]. apply Z.ltb_ge in E'.
      intros _. specialize (IH E').
      replace (Z.to_nat (Index s sep + 1)) with (S (Z.to_nat (Index s sep))) by lia.
      replace (Z.to_nat (Index s sep + 1 + Z.of_nat (String.length sep)))
        with (S (Z.to_nat (Index s sep + Z.of_nat (String.length sep)))) by lia.
      simpl. f_equal. exact IH.
Qed.

(** Nothing before the first occurrence contains the separator. *)
Lemma Index_take_clean (s sep : string) :
  sep <> "" -> 0 <= Index s sep ->
  Contains (take (Z.to_nat (Index s sep)) s) sep = false.
Proof.
  intros Hsep. unfold Contains. induction s as [|c s IH]; simpl Index.
  - destruct (HasPrefix "" sep) eqn:E; [|lia]. destruct sep; [congruence|discriminate].
  - destruct (HasPrefix (String c s) sep) eqn:E.
    + intros _. change (take (Z.to_nat 0) (String c s)) with "".
      rewrite Index_empty by assumption. reflexivity.
    + destruct (Index s sep <? 0) eqn:E'; [lia|]. apply Z.ltb_ge in E'.
      intros _. specialize (IH E').
      replace (Z.to_nat (Index s sep + 1)) with (S (Z.to_nat (Index s sep))) by lia.
      simpl take. simpl Index.
      destruct (HasPrefix (String c (take (Z.to_nat (Index s sep)) s)) sep) eqn:E2.
      * apply (HasPrefix_take (S (Z.to_nat (Index s sep))) (String c s)) in E2.
        congruence.
      * apply Z.leb_gt in IH. rewrite (proj2 (Z.ltb_lt _ _) IH). reflexivity.
Qed.

Lemma Index_cons (c : ascii) (s sep : string) :
  Index (String c s) sep =
  if HasPrefix (String c s) sep then 0
  else if Index s sep <? 0 then -1 else Index s sep + 1.
Proof. reflexivity. Qed.

Lemma HasPrefix_cons (a b : ascii) (s pre : string) :
  HasPrefix (String b s) (String a pre) = Ascii.eqb a b && HasPrefix s pre.
Proof. reflexivity. Qed.

(** The marker cannot begin inside [p] and end inside a following marker. *)
Lemma marker_no_straddle (c : ascii) (p v : string) :
  HasPrefix (String c p) marker = false ->
  HasPrefix (String c (p ++ marker ++ v)) marker = false.
Proof.
  unfold marker. intros E.
  destruct (HasPrefix (String c (p ++ "+up" ++ v)) "+up") eqn:E2; [|reflexivity].
  exfalso. rewrite HasPrefix_cons in E, E2.
  apply andb_true_iff in E2 as [Ec E2]. rewrite Ec, andb_true_l in E.
  destruct p as [|d p].
  - change ("" ++ "+up" ++ v) with (String "+" (String "u" (String "p" v))) in E2.
    rewrite HasPrefix_cons in E2. discriminate.
  - change (String d p ++ "+up" ++ v) with (String d (p ++ "+up" ++ v)) in E2.
    rewrite HasPrefix_cons in E, E2.
    apply andb_true_iff in E2 as [Ed E2]. rewrite Ed, andb_true_l in E.
    destruct p as [|e p].
    + change ("" ++ "+up" ++ v) with (String "+" (String "u" (String "p" v))) in E2.
      rewrite HasPrefix_cons in E2. discriminate.
    + change (String e p ++ "+up" ++ v) with (String e (p ++ "+up" ++ v)) in E2.
      rewrite HasPrefix_cons in E, E2.
      apply andb_true_iff in E2 as [Ee _]. rewrite Ee in E. discriminate.
Qed.

(** In [p ++ "+up" ++ v] with no marker in [p], the first occurrence is the
    one written. *)
Lemma Index_marker_app (p v : string) :
  Contains p marker = false -> Index (p ++ marker ++ v) marker = len p.
Proof.
  unfold Contains, len. induction p as [|c p IH]; intros H.
  - reflexivity.
  - change (String c p ++ marker ++ v) with (String c (p ++ marker ++ v)).
    rewrite Index_cons in H |- *.
    destruct (HasPrefix (String c p) marker) eqn:E; [discriminate|].
    rewrite (marker_no_straddle _ _ _ E).
    destruct (Index p marker <? 0) eqn:E'.
    + apply Z.ltb_lt in E'.
      rewrite IH by (apply Z.leb_gt; lia).
      simpl String.length. rewrite Nat2Z.inj_succ.
      destruct (Z.of_nat (String.length p) <? 0) eqn:E3; [|lia].
      apply Z.ltb_lt in E3. lia.
    + apply Z.ltb_ge in E'. apply Z.leb_gt in H. lia.
Qed.

(** *** [Count] and [Split] *)

Lemma countLoop_unfold (f : nat) (s sep : string) :
  countLoop (S f) s sep =
  if Index s sep <? 0 then O
  else S (countLoop f (drop (Z.to_nat (Index s sep + len sep)) s) sep).
Proof. reflexivity. Qed.

Lemma splitLoop_unfold (n : nat) (s sep : string) :
  splitLoop (S n) s sep =
  if Index s sep <? 0 then [s]
  else take (Z.to_nat (Index s sep)) s
         :: splitLoop n (drop (Z.to_nat (Index s sep + len sep)) s) sep.
Proof. reflexivity. Qed.

Lemma len_pos (sep : string) : sep <> "" -> 1 <= len sep.
Proof. destruct sep; [congruence|]. unfold len. simpl String.length. lia. Qed.

(** The fuel of [Count] is enough: any amount of at least [len(s)] rounds
    gives the same count. *)
Lemma countLoop_fuel (sep : string) :
  sep <> "" ->
  forall (f1 f2 : nat) (s : string),
    (String.length s <= f1)%nat -> (String.length s <= f2)%nat ->
    countLoop f1 s sep = countLoop f2 s sep.
Proof.
  intros Hsep. induction f1 as [|f1 IH]; intros f2 s H1 H2.
  - destruct s; [|simpl in H1; lia].
    destruct f2; [reflexivity|].
    rewrite countLoop_unfold, Index_empty by assumption. reflexivity.
  - destruct f2 as [|f2].
    + destruct s; [|simpl in H2; lia].
      rewrite countLoop_unfold, Index_empty by assumption. reflexivity.
    + rewrite !countLoop_unfold.
      destruct (Index s sep <? 0) eqn:E; [reflexivity|]. apply Z.ltb_ge in E.
      f_equal. pose proof (len_pos sep Hsep).
      apply IH; rewrite length_drop; lia.
Qed.

Lemma Count_none (s sep : string) : Index s sep < 0 -> Count s sep = O.
Proof.
  intros H. unfold Count. destruct (String.length s); [reflexivity|].
  rewrite countLoop_unfold. now rewrite (proj2 (Z.ltb_lt _ _) H).
Qed.

Lemma Count_some (s sep : string) :
  sep <> "" -> 0 <= Index s sep ->
  Count s sep = S (Count (drop (Z.to_nat (Index s sep + len sep)) s) sep).
Proof.
  intros Hsep H. unfold Count.
  destruct s as [|c s]; [rewrite Index_empty in H by assumption; lia|].
  simpl String.length. rewrite countLoop_unfold.
  rewrite (proj2 (Z.ltb_ge _ _) H). f_equal.
  pose proof (len_pos sep Hsep).
  apply countLoop_fuel; trivial; rewrite length_drop; simpl String.length; lia.
Qed.

Lemma Split_none (s sep : string) : Index s sep < 0 -> Split s sep = [s].
Proof. intros H. unfold Split. now rewrite Count_none. Qed.

Lemma Split_some (s sep : string) :
  sep <> "" -> 0 <= Index s sep ->
  Split s sep =
  take (Z.to_nat (Index s sep)) s
    :: Split (drop (Z.to_nat (Index s sep + len sep)) s) sep.
Proof.
  intros Hsep H. unfold Split at 1. rewrite Count_some by assumption.
  rewrite splitLoop_unfold, (proj2 (Z.ltb_ge _ _) H). reflexivity.
Qed.

Lemma Split_head (s sep : string) :
  sep <> "" -> exists tl, Split s sep = upToSep s sep :: tl.
Proof.
  intros Hsep. unfold upToSep. destruct (Index s sep <? 0) eqn:E.
  - apply Z.ltb_lt in E. rewrite Split_none by assumption. now exists [].
  - apply Z.ltb_ge in E. rewrite Split_some by assumption. eauto.
Qed.

Lemma marker_nonempty : marker <> "".
Proof. discriminate. Qed.

(** What [parseRepoPrefixVersionIfAny] computes on a string with a marker. *)
Lemma parse_found (s : string) :
  Contains s marker = true ->
  parseRepoPrefixVersionIfAny s =
  Some (take (Z.to_nat (Index s marker)) s,
        upToSep (drop (Z.to_nat (Index s marker + len marker)) s) marker,
        true).
Proof.
  intros H. unfold parseRepoPrefixVersionIfAny. rewrite H.
  unfold Contains in H. apply Z.leb_le in H.
  rewrite Split_some by (trivial using marker_nonempty).
  destruct (Split_head (drop (Z.to_nat (Index s marker + len marker)) s) marker
              marker_nonempty) as [tl ->].
  reflexivity.
Qed.

Lemma parse_not_found (s : string) :
  Contains s marker = false ->
  parseRepoPrefixVersionIfAny s = Some ("", s, false).
Proof. intros H. unfold parseRepoPrefixVersionIfAny. now rewrite H. Qed.

(** [versions[0]] and [versions[1]] are always in range: the parser is
    total. *)
Lemma parse_total (s : string) :
  exists repoPrefix version found,
    parseRepoPrefixVersionIfAny s = Some (repoPrefix, version, found).
Proof.
  destruct (Contains s marker) eqn:E.
  - rewrite parse_found by assumption. eauto.
  - rewrite parse_not_found by assumption. eauto.
Qed.

Lemma upToSep_clean (s sep : string) :
  Contains s sep = false -> upToSep s sep = s.
Proof.
  unfold Contains, upToSep. intros H. apply Z.leb_gt in H.
  now rewrite (proj2 (Z.ltb_lt _ _) H).
Qed.

Lemma upToSep_marker_app (b c : string) :
  Contains b marker = false -> upToSep (b ++ marker ++ c) marker = b.
Proof.
  intros H. unfold upToSep. rewrite Index_marker_app by assumption.
  unfold len. destruct (Z.of_nat (String.length b) <? 0) eqn:E;
    [apply Z.ltb_lt in E; lia|].
  rewrite Nat2Z.id. apply take_app.
Qed.

Lemma length_take (n : nat) (s : string) :
  (n <= String.length s)%nat -> String.length (take n s) = n.
Proof.
  revert s; induction n as [|n IH]; intros [|c s] H; simpl in *;
    try reflexivity; try lia.
  rewrite IH; lia.
Qed.

(* ------------------------------------------------------------------ *)
(** ** parseRepoPrefixVersionIfAny *)

(** C4 (as amended).  For every string that contains the marker ["+up"],
    [parseRepoPrefixVersionIfAny] returns [found = true], as [repoPrefix]
    the text before the first occurrence of the marker, and as [version]
    the text between that first occurrence and the next occurrence of the
    marker: the whole remainder when it holds no further marker, and only
    its part before the second marker otherwise (what follows the second
    marker is dropped). *)
Theorem parse_splits_at_first_marker (s : string)
    (H : Contains s marker = true) :
  exists a rest v,
    s = a ++ marker ++ rest /\
    Index s marker = len a /\
    Contains a marker = false /\
    parseRepoPrefixVersionIfAny s = Some (a, v, true) /\
    (Contains rest marker = false -> v = rest) /\
    (forall b c, rest = b ++ marker ++ c -> Contains b marker = false -> v = b).
Proof.
  pose proof (parse_found s H) as Hp.
  unfold Contains in H. apply Z.leb_le in H.
  pose proof (Index_upper s marker) as Hu. unfold len in Hu.
  exists (take (Z.to_nat (Index s marker)) s),
         (drop (Z.to_nat (Index s marker + len marker)) s),
         (upToSep (drop (Z.to_nat (Index s marker + len marker)) s) marker).
  repeat split.
  - now apply Index_split.
  - unfold len. rewrite length_take by lia. lia.
  - apply Index_take_clean; [apply marker_nonempty | assumption].
  - exact Hp.
  - apply upToSep_clean.
  - intros b c -> Hb. now apply upToSep_marker_app.
Qed.

Lemma parse_splits_at_first_marker_witness :
  exists a rest v,
    "104.2.0+up1.2.3" = a ++ marker ++ rest /\
    Index "104.2.0+up1.2.3" marker = len a /\
    Contains a marker = false /\
    parseRepoPrefixVersionIfAny "104.2.0+up1.2.3" = Some (a, v, true) /\
    (Contains rest marker = false -> v = rest) /\
    (forall b c, rest = b ++ marker ++ c -> Contains b marker = false -> v = b).
Proof. apply (parse_splits_at_first_marker "104.2.0+up1.2.3"). reflexivity. Defined.

(** C4, as stated, fails: on a string with two markers the returned
    [version] is not the whole remainder after the first marker. *)
Lemma parse_two_markers_drops_tail :
  Contains "104.2.0+up1.2.3+up4" marker = true /\
  "104.2.0+up1.2.3+up4" = "104.2.0" ++ marker ++ "1.2.3+up4" /\
  Index "104.2.0+up1.2.3+up4" marker = len "104.2.0" /\
  parseRepoPrefixVersionIfAny "104.2.0+up1.2.3+up4"
    = Some ("104.2.0", "1.2.3", true) /\
  parseRepoPrefixVersionIfAny "104.2.0+up1.2.3+up4"
    <> Some ("104.2.0", "1.2.3+up4", true).
Proof. repeat split; try reflexivity. discriminate. Qed.

(** C9 (as amended).  For all strings [p] and [v] that do not themselves
    contain the marker, parsing ["<p>+up<v>"] returns [(p, v, true)]; and
    for every string [s] lacking the marker, parsing returns
    [("", s, false)]. *)
Theorem parse_roundtrip (p v s : string)
    (Hp : Contains p marker = false)
    (Hv : Contains v marker = false)
    (Hs : Contains s marker = false) :
  parseRepoPrefixVersionIfAny (p ++ "+up" ++ v) = Some (p, v, true) /\
  parseRepoPrefixVersionIfAny s = Some ("", s, false).
Proof.
  split; [|now apply parse_not_found].
  change "+up" with marker.
  assert (Hi : Index (p ++ marker ++ v) marker = len p)
    by now apply Index_marker_app.
  rewrite parse_found by (unfold Contains, len in *; rewrite Hi; apply Z.leb_le; lia).
  rewrite Hi. unfold len. rewrite Nat2Z.id, take_app.
  rewrite <- Nat2Z.inj_add, Nat2Z.id.
  rewrite <- drop_drop, drop_app.
  change (drop (String.length marker) (marker ++ v)) with v.
  now rewrite upToSep_clean.
Qed.

Lemma parse_roundtrip_witness :
  parseRepoPrefixVersionIfAny ("104.2.0" ++ "+up" ++ "1.2.3")
    = Some ("104.2.0", "1.2.3", true) /\
  parseRepoPrefixVersionIfAny "1.2.3" = Some ("", "1.2.3", false).
Proof.
  apply (parse_roundtrip "104.2.0" "1.2.3" "1.2.3"); reflexivity.
Defined.

(** C9, as stated for all [p] and [v], fails when [v] (or [p]) contains the
    marker. *)
Lemma parse_roundtrip_fails_with_marker_inside :
  parseRepoPrefixVersionIfAny ("104.2.0" ++ "+up" ++ "1.2.3+up4")
    <> Some ("104.2.0", "1.2.3+up4", true) /\
  parseRepoPrefixVersionIfAny ("104+up2" ++ "+up" ++ "1.2.3")
    <> Some ("104+up2", "1.2.3", true).
Proof. split; discriminate. Qed.

(* ------------------------------------------------------------------ *)
(** ** Running the methods of [*Bump] *)

Lemma setVersions_twice (b : Bump) (x y : option versions) :
  setVersions (setVersions b x) y = setVersions b y.
Proof. reflexivity. Qed.

Lemma setVersions_same (b : Bump) : setVersions b (versions_ b) = b.
Proof. now destruct b. Qed.

Lemma eqb_false_neq (s : string) : String.eqb s "" = false -> s <> "".
Proof. intros H ->. discriminate. Qed.

Lemma neq_eqb_false (s : string) : s <> "" -> String.eqb s "" = false.
Proof. intros H. now apply String.eqb_neq. Qed.

(** The library functions stay folded while the monad is unfolded. *)
Arguments semver.Make : simpl never.
Arguments semver.Parse : simpl never.
Arguments semver.String : simpl never.
Arguments semver.LT : simpl never.
Arguments parseRepoPrefixVersionIfAny : simpl never.

(** Unfold the monad down to its [match]es. *)
Ltac run_in H :=
  unfold callUpdateTxt, callUpdateSemver, setTxt, storeSvr, loadSvr, load, store,
    callParseRepoPrefixVersionIfAny, first, deref, updateTxt, updateSemver,
    returnIf, nil, bind, get, put, ret, fail, crash in H;
  cbn in H.

Ltac run :=
  unfold callUpdateTxt, callUpdateSemver, setTxt, storeSvr, loadSvr, load, store,
    callParseRepoPrefixVersionIfAny, first, deref, updateTxt, updateSemver,
    returnIf, nil, bind, get, put, ret, fail, crash;
  cbn.

(** Closed goals are settled by evaluation. *)
Ltac by_computation := vm_compute; reflexivity.

Ltac conj_by_computation :=
  repeat match goal with |- _ /\ _ => split end; by_computation.

(** [Continuation] at concrete values, the rule text being [rule]. *)
Ltac continuation_by_computation rule :=
  split; [by_computation|];
  split; [exists rule; split; by_computation|];
  split; [cbn; discriminate|];
  conj_by_computation.

(** Case analysis on the innermost scrutinee of a hypothesis. *)
Ltac break_match :=
  match goal with
  | H : context [match ?x with _ => _ end] |- _ =>
      lazymatch x with
      | context [match _ with _ => _ end] => fail
      | _ => destruct x eqn:?
      end
  end.

Lemma loadVersions_inv (b b' : Bump) (r : res unit) :
  loadVersions b = (b', r) ->
  r = Val tt \/ r = Fail errBumpVersion ->
  exists vs t l,
    Loaded b vs /\ b' = setVersions b (Some vs) /\
    svr (toRelease vs) = Some t /\ svr (latest vs) = Some l /\
    r = (if semver.LT t l then Fail errBumpVersion else Val tt).
Proof.
  unfold loadVersions, Loaded, latestPublished, upstreamVersion.
  intros H Hr. run_in H.
  repeat (break_match; cbn in *; try (destruct Hr; congruence));
    injection H as <- <-;
    repeat match goal with
           | E : String.eqb _ "" = false |- _ => apply eqb_false_neq in E
           | E : (_, _) = (_, _) |- _ => injection E as -> ->
           end; subst;
    match goal with
    | E : parseRepoPrefixVersionIfAny (charts.GetUpstreamVersion _) = Some _ |- _ =>
        pose proof E as E'; unfold parseRepoPrefixVersionIfAny in E';
        destruct (Contains (charts.GetUpstreamVersion _) marker) eqn:Hc;
        [repeat break_match; congruence|]
    end;
    (do 3 eexists; split; cycle 1;
     [ split; [reflexivity|]; cbn; repeat split; try reflexivity;
       repeat match goal with E : semver.LT _ _ = _ |- _ => rewrite E end;
       reflexivity
     | do 7 eexists; repeat (split; [eassumption || reflexivity|]);
       cbn; first [reflexivity | eexists; split; [eassumption|reflexivity]] ]).
Qed.

Lemma loadVersions_run (b : Bump) (vs : versions) (t l : semver.Version) :
  Loaded b vs ->
  svr (toRelease vs) = Some t -> svr (latest vs) = Some l ->
  loadVersions b
  = (setVersions b (Some vs),
     if semver.LT t l then Fail errBumpVersion else Val tt).
Proof.
  intros (pub & lrp & lv & found & up & l' & t' & Hpub & Hne & Hparse & Hl
          & Hup & Hune & Ht & Hc & El & Et & Ep & Elrp) Hst Hsl.
  destruct vs as [vl vlrp vt vtrp]. cbn in *. subst vl vt vtrp.
  cbn in Hst, Hsl. injection Hst as ->. injection Hsl as ->.
  unfold latestPublished in Hpub. unfold upstreamVersion in Hup.
  destruct (mapGet [] (assetsVersionsMap b) (targetChart b)) as [|asset rest] eqn:Ea;
    [discriminate|]. injection Hpub as <-.
  destruct (Pkg b) as [pkg|] eqn:Epkg; [|discriminate]. cbn in Hup.
  injection Hup as <-.
  apply neq_eqb_false in Hne, Hune.
  pose proof (parse_not_found _ Hc) as Hparse'.
  assert (Hlrp : if found then exists lp, semver.Make lrp = inr lp
                                  /\ vlrp = mkV lrp (Some lp)
                 else vlrp = emptyVersion) by exact Elrp.
  unfold loadVersions. run.
  destruct found.
  - destruct Hlrp as (lp & Hlp & ->).
    repeat (rewrite ?Ea, ?Hne, ?Hparse, ?Hlp, ?Hl, ?Epkg, ?Hune, ?Ht, ?Hparse'; cbn).
    destruct (semver.LT t l); reflexivity.
  - subst vlrp.
    repeat (rewrite ?Ea, ?Hne, ?Hparse, ?Hl, ?Epkg, ?Hune, ?Ht, ?Hparse'; cbn).
    destruct (semver.LT t l); reflexivity.
Qed.

(** [loadVersions] and [applyVersionRules] write [b.versions] only. *)
Lemma loadVersions_frame (b b' : Bump) (r : res unit) :
  loadVersions b = (b', r) -> b' = setVersions b (versions_ b').
Proof.
  unfold loadVersions. intros H. run_in H.
  repeat (break_match; cbn in * );
    injection H as <- <-; reflexivity.
Qed.

Lemma applyVersionRules_frame (b b' : Bump) (r : res unit) :
  applyVersionRules b = (b', r) -> b' = setVersions b (versions_ b').
Proof.
  unfold applyVersionRules. intros H. run_in H.
  repeat (break_match; cbn in * );
    injection H as <- <-; cbn; rewrite ?setVersions_same;
    try reflexivity; now destruct b.
Qed.

(* ------------------------------------------------------------------ *)
(** ** The order of semantic versions *)

Lemma cmpZ_range (a b : Z) : -1 <= semver.cmpZ a b <= 1.
Proof. unfold semver.cmpZ. destruct (a =? b), (a >? b); lia. Qed.

Lemma PRCompare_range (v o : semver.PRVersion) : -1 <= semver.PRCompare v o <= 1.
Proof.
  unfold semver.PRCompare.
  pose proof (cmpZ_range (semver.VersionNum v) (semver.VersionNum o)).
  repeat match goal with |- context [if ?c then _ else _] => destruct c end; lia.
Qed.

Lemma preCompare_range (v o : list semver.PRVersion) :
  -1 <= semver.preCompare v o <= 1.
Proof.
  revert o; induction v as [|x v IH]; intros [|y o]; simpl; try lia.
  destruct (semver.PRCompare x y =? 0); [apply IH|].
  destruct (semver.PRCompare x y =? 1); lia.
Qed.

Lemma Compare_range (v o : semver.Version) : -1 <= semver.Compare v o <= 1.
Proof.
  unfold semver.Compare.
  pose proof (preCompare_range (semver.Pre v) (semver.Pre o)).
  repeat match goal with
         | |- context [if ?c then _ else _] => destruct c
         | |- context [match ?l with [] => _ | _ :: _ => _ end] => destruct l
         end; lia.
Qed.

(** [v >= o] is the negation of [v < o]. *)
Lemma GE_not_LT (v o : semver.Version) : semver.GE v o = negb (semver.LT v o).
Proof.
  unfold semver.GE, semver.LT. pose proof (Compare_range v o).
  destruct (semver.Compare v o =? -1) eqn:E.
  - apply Z.eqb_eq in E. rewrite E. reflexivity.
  - apply Z.eqb_neq in E. apply Z.leb_le. lia.
Qed.

(* ------------------------------------------------------------------ *)
(** ** loadVersions *)

(** C3.  [loadVersions] returns the regression error [errBumpVersion]
    exactly when the bare [toRelease] version is strictly less than the
    bare [latest] version (the two upstream-only versions that Step A
    loads, the repo-prefix of the published version set aside); it returns
    [nil] exactly when the bare versions are loaded and
    [toRelease >= latest]; hence whenever [calculateNextVersion] succeeds,
    [toRelease.bare >= latest.bare]. *)
Theorem loadVersions_regression (b : Bump) :
  (snd (loadVersions b) = Fail errBumpVersion <->
   exists t l, bareVersions b t l /\ semver.LT t l = true) /\
  (snd (loadVersions b) = Val tt <->
   exists t l, bareVersions b t l /\ semver.GE t l = true) /\
  (snd (calculateNextVersion b) = Val tt ->
   exists t l, bareVersions b t l /\ semver.GE t l = true).
Proof.
  assert (Hfail : snd (loadVersions b) = Fail errBumpVersion <->
                  exists t l, bareVersions b t l /\ semver.LT t l = true).
  { split.
    - destruct (loadVersions b) as [b' r] eqn:E. cbn. intros ->.
      destruct (loadVersions_inv _ _ _ E (or_intror eq_refl))
        as (vs & t & l & HL & _ & Ht & Hl & Hr).
      exists t, l. split; [now exists vs|].
      destruct (semver.LT t l); [reflexivity | discriminate].
    - intros (t & l & (vs & HL & Ht & Hl) & Hlt).
      rewrite (loadVersions_run _ _ _ _ HL Ht Hl), Hlt. reflexivity. }
  assert (Hok : snd (loadVersions b) = Val tt <->
                exists t l, bareVersions b t l /\ semver.GE t l = true).
  { split.
    - destruct (loadVersions b) as [b' r] eqn:E. cbn. intros ->.
      destruct (loadVersions_inv _ _ _ E (or_introl eq_refl))
        as (vs & t & l & HL & _ & Ht & Hl & Hr).
      exists t, l. split; [now exists vs|].
      rewrite GE_not_LT. destruct (semver.LT t l); [discriminate | reflexivity].
    - intros (t & l & (vs & HL & Ht & Hl) & Hge).
      rewrite (loadVersions_run _ _ _ _ HL Ht Hl).
      rewrite GE_not_LT in Hge. destruct (semver.LT t l); [discriminate|reflexivity]. }
  repeat split; try apply Hfail; try apply Hok.
  intros H. apply Hok.
  unfold calculateNextVersion, bind in H.
  destruct (loadVersions b) as [b1 [[]|e|p]]; cbn in *; [reflexivity|discriminate..].
Qed.

(* ------------------------------------------------------------------ *)
(** ** applyVersionRules *)

Lemma applyVersionRules_transition (b : Bump) (vs : versions)
    (rule : string) (r : semver.Version) :
  Transition b vs rule r ->
  applyVersionRules b
  = (setVersions b (Some (writeCell vs cToReleaseRepoPrefix (mkV rule (Some r)))),
     Val tt).
Proof.
  intros (Hvs & Hrule & Hr & Hcase).
  unfold ruleMin in Hrule. destruct (versionRules b) as [vr|] eqn:Evr; [|discriminate].
  cbn in Hrule. injection Hrule as Hrule.
  unfold applyVersionRules. run.
  repeat (first [rewrite Evr | rewrite Hrule | rewrite Hr | rewrite Hvs]; cbn).
  destruct Hcase as [Hempty | (lp & Hlp & Hmajor)].
  - rewrite Hempty. cbn.
    repeat (first [rewrite Hr | rewrite Hvs]; cbn). reflexivity.
  - destruct (String.eqb (txt (latestRepoPrefix vs)) "") eqn:E; cbn.
    + repeat (first [rewrite Hr | rewrite Hvs]; cbn). reflexivity.
    + rewrite Hlp. cbn. rewrite (proj2 (Z.eqb_neq _ _) Hmajor). cbn.
      repeat (first [rewrite Hr | rewrite Hvs]; cbn). reflexivity.
Qed.

Lemma bump_exclusive (t l : semver.Version) :
  patchOnly t l && minorOrMajor t l = false.
Proof.
  unfold patchOnly, minorOrMajor.
  destruct (semver.Patch t >? semver.Patch l),
           (semver.Major t >? semver.Major l),
           (semver.Minor t >? semver.Minor l); reflexivity.
Qed.

Lemma applyVersionRules_continuation (b : Bump) (vs : versions)
    (r c t l : semver.Version) :
  Continuation b vs r c t l ->
  applyVersionRules b
  = (setVersions b
       (Some (writeCell vs cToReleaseRepoPrefix
                (mkV (semver.String (bumped c t l)) (Some (bumped c t l))))),
     Val tt).
Proof.
  intros (Hvs & (rule & Hrule & Hr) & Hne & Hlp & Hc & Hmajor & Ht & Hl).
  unfold ruleMin in Hrule. destruct (versionRules b) as [vr|] eqn:Evr; [|discriminate].
  cbn in Hrule. injection Hrule as Hrule.
  apply neq_eqb_false in Hne.
  unfold applyVersionRules. run.
  repeat (first [rewrite Evr | rewrite Hrule | rewrite Hr | rewrite Hvs
                | rewrite Hne | rewrite Hlp | rewrite Hc | rewrite Ht
                | rewrite Hl | rewrite Hmajor, Z.eqb_refl]; cbn).
  pose proof (bump_exclusive t l) as Hx.
  unfold bumped. unfold patchOnly, minorOrMajor in *.
  destruct (semver.Patch t >? semver.Patch l),
           (semver.Major t >? semver.Major l),
           (semver.Minor t >? semver.Minor l); cbn in *; try discriminate;
    reflexivity.
Qed.

(** What [loadVersions] leaves behind is the state [applyVersionRules]
    expects: with a rule of the same major as the loaded repo-prefix, the
    computation is a continuation over the bare versions. *)
Lemma loadVersions_continuation (b b1 : Bump) (vs : versions)
    (rule : string) (r c : semver.Version) :
  loadVersions b = (b1, Val tt) ->
  versions_ b1 = Some vs ->
  ruleMin b = Some rule -> semver.Make rule = inr r ->
  txt (latestRepoPrefix vs) <> "" ->
  svr (latestRepoPrefix vs) = Some c ->
  semver.Major r = semver.Major c ->
  exists t l, Continuation b1 vs r c t l /\ bareVersions b t l.
Proof.
  intros H Hvs Hrule Hr Hne Hc Hmajor.
  destruct (loadVersions_inv _ _ _ H (or_introl eq_refl))
    as (vs' & t & l & HL & -> & Ht & Hl & _).
  cbn in Hvs. injection Hvs as ->.
  exists t, l. split; [|now exists vs].
  repeat split; trivial.
  - exists rule. now split.
  - destruct HL as (pub & lrp & lv & found & up & l' & t' & _ & _ & _ & _
                    & _ & _ & _ & _ & _ & _ & _ & Elrp).
    destruct found.
    + destruct Elrp as (lp & Hlp & E). rewrite E in Hc |- *. cbn in *.
      congruence.
    + rewrite Elrp in Hne. now elim Hne.
Qed.

(* ------------------------------------------------------------------ *)
(** ** Parsed numbers are [uint64] values *)

Lemma parseDigits_range (s : string) :
  forall acc n, 0 <= acc <= maxUint64 ->
    parseDigits acc s = Some n -> 0 <= n <= maxUint64.
Proof.
  induction s as [|ch s IH]; intros acc n Hacc H; simpl in H.
  - now injection H as <-.
  - destruct (isDigit ch) eqn:Ed; [|discriminate].
    destruct (acc * 10 + (Z.of_nat (nat_of_ascii ch) - 48) <=? maxUint64) eqn:E;
      [|discriminate].
    refine (IH _ _ _ H). apply Z.leb_le in E. split; [|assumption].
    unfold isDigit in Ed. apply andb_true_iff in Ed as [Ed _].
    apply Nat.leb_le in Ed. lia.
Qed.

Lemma ParseUint_range (s : string) (n : Z) :
  ParseUint s = Some n -> 0 <= n <= maxUint64.
Proof.
  unfold ParseUint. destruct s; [discriminate|].
  apply parseDigits_range. unfold maxUint64. lia.
Qed.

Lemma parseNumber_range (k : semver.component) (s : string) (n : Z) :
  semver.parseNumber k s = inr n -> 0 <= n <= maxUint64.
Proof.
  unfold semver.parseNumber.
  destruct (negb (semver.containsOnly s semver.numbers)); [discriminate|].
  destruct (semver.hasLeadingZeroes s); [discriminate|].
  destruct (ParseUint s) eqn:E; [|discriminate].
  intros [= <-]. now apply (ParseUint_range s).
Qed.

Lemma Make_range (s : string) (v : semver.Version) :
  semver.Make s = inr v ->
  0 <= semver.Major v <= maxUint64 /\
  0 <= semver.Minor v <= maxUint64 /\
  0 <= semver.Patch v <= maxUint64.
Proof.
  unfold semver.Make, semver.Parse. intros H.
  repeat (break_match; try discriminate).
  all: injection H as <-; cbn.
  all: repeat match goal with
         | E : semver.parseNumber _ _ = inr _ |- _ =>
             apply parseNumber_range in E
         end.
  all: auto.
Qed.

Lemma incr64_below_max (x : Z) : 0 <= x < maxUint64 -> incr64 x = x + 1.
Proof.
  unfold incr64, wrap64, maxUint64. intros H. apply Z.mod_small. lia.
Qed.

Lemma incr64_at_max : incr64 maxUint64 = 0.
Proof. reflexivity. Qed.

(** From here on the [uint64] increment is used through the two lemmas
    above and by evaluation only. *)
Opaque incr64.

(* ------------------------------------------------------------------ *)
(** ** The two cases of applyVersionRules *)

(** C1.  In the continuation case (a latest repo-prefix exists and its
    major equals the branch rule's major) [applyVersionRules] succeeds and
    leaves as repo-prefix the latest repo-prefix [c] carried forward (same
    major, pre-release and build parts), with its patch incremented by one
    when only the patch of [toRelease] increased over [latest], and with
    its minor incremented by one and its patch reset to zero when the minor
    or the major increased; the text is rendered from the result.  The
    increment is Go's [++] on [uint64]: [incr64 x = (x + 1) mod 2^64], which
    is [x + 1] for every value below the maximum.  With latest
    ["104.2.0+up1.2.3"] and rule major 104, [toRelease = "1.2.4"] gives
    repo-prefix ["104.2.1"], and [toRelease = "1.3.0"] gives ["104.3.0"] and
    the final version ["104.3.0+up1.3.0"]. *)
Theorem continuation_bumps_repo_prefix (b : Bump) (vs : versions)
    (r c t l : semver.Version) (H : Continuation b vs r c t l) :
  (exists b' p,
     applyVersionRules b = (b', Val tt) /\
     repoPrefixOf b' = Some (mkV (semver.String p) (Some p)) /\
     semver.Major p = semver.Major c /\
     semver.Pre p = semver.Pre c /\ semver.Build p = semver.Build c /\
     (patchOnly t l = true ->
      semver.Minor p = semver.Minor c /\
      semver.Patch p = incr64 (semver.Patch c)) /\
     (minorOrMajor t l = true ->
      semver.Minor p = incr64 (semver.Minor c) /\ semver.Patch p = 0) /\
     (semver.Patch c < maxUint64 -> incr64 (semver.Patch c) = semver.Patch c + 1) /\
     (semver.Minor c < maxUint64 -> incr64 (semver.Minor c) = semver.Minor c + 1)) /\
  (prefixTxt (fst (applyVersionRules (loadedFor "104.2.0+up1.2.3" "1.2.4" "104.0.0")))
   = Some "104.2.1" /\
   prefixTxt (fst (applyVersionRules (loadedFor "104.2.0+up1.2.3" "1.3.0" "104.0.0")))
   = Some "104.3.0" /\
   snd (calculateNextVersion (bumpFor "104.2.0+up1.2.3" "1.3.0" "104.0.0")) = Val tt /\
   chartVersionOf (fst (calculateNextVersion (bumpFor "104.2.0+up1.2.3" "1.3.0" "104.0.0")))
   = Some "104.3.0+up1.3.0").
Proof.
  split; [|conj_by_computation].
  pose proof (applyVersionRules_continuation _ _ _ _ _ _ H) as Hrun.
  destruct H as (_ & _ & _ & _ & Hc & _).
  apply Make_range in Hc. destruct Hc as (_ & Hminor & Hpatch).
  assert (Hp1 : semver.Patch c < maxUint64 ->
                incr64 (semver.Patch c) = semver.Patch c + 1)
    by (intros; apply incr64_below_max; lia).
  assert (Hm1 : semver.Minor c < maxUint64 ->
                incr64 (semver.Minor c) = semver.Minor c + 1)
    by (intros; apply incr64_below_max; lia).
  eexists. exists (bumped c t l). split; [exact Hrun|].
  split; [reflexivity|].
  pose proof (bump_exclusive t l) as Hx.
  unfold bumped.
  destruct (patchOnly t l), (minorOrMajor t l); try discriminate Hx;
    cbn [withPatch withMinor semver.Major semver.Minor semver.Patch
         semver.Pre semver.Build];
    repeat match goal with
           | |- _ /\ _ => split
           | |- false = true -> _ => let E := fresh in intros E; discriminate E
           | |- true = true -> _ => intros _
           end;
    first [exact Hp1 | exact Hm1 | exact eq_refl].
Qed.

Lemma continuation_bumps_repo_prefix_witness :
  exists b' p,
    applyVersionRules (loadedFor "104.2.0+up1.2.3" "1.2.4" "104.0.0")
      = (b', Val tt) /\
    repoPrefixOf b' = Some (mkV (semver.String p) (Some p)) /\
    semver.Patch p = 1.
Proof.
  destruct (continuation_bumps_repo_prefix
              (loadedFor "104.2.0+up1.2.3" "1.2.4" "104.0.0")
              (mkVersions (mkV "1.2.3" (Some (v3 1 2 3)))
                          (mkV "104.2.0" (Some (v3 104 2 0)))
                          (mkV "1.2.4" (Some (v3 1 2 4)))
                          emptyVersion)
              (v3 104 0 0) (v3 104 2 0) (v3 1 2 4) (v3 1 2 3))
    as [(b' & p & Hrun & Hp & _ & _ & _ & Hpatch & _) _].
  - continuation_by_computation "104.0.0".
  - exists b', p. split; [exact Hrun|]. split; [exact Hp|].
    destruct (Hpatch eq_refl) as [_ ->]. by_computation.
Defined.

(** C2.  When no prior repo-prefix exists, or the major of the existing
    repo-prefix differs from the major of the branch rule,
    [applyVersionRules] succeeds with the rule's version string, verbatim,
    as the new repo-prefix (parsed form: the rule's), and touches nothing
    else: the result does not depend on [latest] or [toRelease].  With
    latest repo-prefix 104.2.0 and rule ["105.0.0"] the repo-prefix is
    ["105.0.0"] for a patch, a minor and a major upstream change alike. *)
Theorem transition_adopts_rule (b : Bump) (vs : versions)
    (rule : string) (r : semver.Version) (H : Transition b vs rule r) :
  (exists b',
     applyVersionRules b = (b', Val tt) /\
     repoPrefixOf b' = Some (mkV rule (Some r)) /\
     option_map latest (versions_ b') = Some (latest vs) /\
     option_map latestRepoPrefix (versions_ b') = Some (latestRepoPrefix vs) /\
     option_map toRelease (versions_ b') = Some (toRelease vs)) /\
  (prefixTxt (fst (applyVersionRules (loadedFor "104.2.0+up1.2.3" "1.2.4" "105.0.0")))
   = Some "105.0.0" /\
   prefixTxt (fst (applyVersionRules (loadedFor "104.2.0+up1.2.3" "1.3.0" "105.0.0")))
   = Some "105.0.0" /\
   prefixTxt (fst (applyVersionRules (loadedFor "104.2.0+up1.2.3" "2.0.0" "105.0.0")))
   = Some "105.0.0" /\
   prefixTxt (fst (applyVersionRules (loadedFor "1.2.3" "1.2.4" "105.0.0")))
   = Some "105.0.0").
Proof.
  split; [|conj_by_computation].
  rewrite (applyVersionRules_transition _ _ _ _ H).
  eexists. split; [reflexivity|]. cbn. repeat split.
Qed.

Lemma transition_adopts_rule_witness :
  exists b',
    applyVersionRules (loadedFor "104.2.0+up1.2.3" "1.3.0" "105.0.0")
      = (b', Val tt) /\
    repoPrefixOf b' = Some (mkV "105.0.0" (Some (v3 105 0 0))).
Proof.
  destruct (transition_adopts_rule
              (loadedFor "104.2.0+up1.2.3" "1.3.0" "105.0.0")
              (mkVersions (mkV "1.2.3" (Some (v3 1 2 3)))
                          (mkV "104.2.0" (Some (v3 104 2 0)))
                          (mkV "1.3.0" (Some (v3 1 3 0)))
                          emptyVersion)
              "105.0.0" (v3 105 0 0))
    as [(b' & Hrun & Hp & _) _].
  - split; [by_computation|]. split; [by_computation|]. split; [by_computation|].
    right. exists (v3 104 2 0). split; [reflexivity | cbn; discriminate].
  - exists b'. split; [exact Hrun | exact Hp].
Defined.

(** C5 (as amended).  For every pair of versions that passes Step A and
    every continuation computation over them, at most one of
    {patch-only bump, minor-or-major bump} applies, as decided by comparing
    [toRelease] with [latest] component by component: a patch-only bump
    when the patch increased and neither minor nor major did, a
    minor-or-major bump when the minor or the major increased.  When
    [toRelease] exceeds [latest] in none of the three components (the bare
    versions are equal, or differ in their pre-release or build part only),
    neither applies and the repo-prefix is carried forward unchanged. *)
Theorem bump_kind_at_most_one (b b1 : Bump) (vs : versions)
    (r c t l : semver.Version)
    (HA : loadVersions b = (b1, Val tt))
    (HC : Continuation b1 vs r c t l) :
  bareVersions b t l /\
  patchOnly t l && minorOrMajor t l = false /\
  exists b2 p,
    applyVersionRules b1 = (b2, Val tt) /\ prefixSvr b2 = Some p /\
    (patchOnly t l = true -> p = withPatch c (incr64 (semver.Patch c))) /\
    (minorOrMajor t l = true ->
     p = withPatch (withMinor c (incr64 (semver.Minor c))) 0) /\
    (patchOnly t l = false -> minorOrMajor t l = false -> p = c).
Proof.
  split; [|split; [apply bump_exclusive|]].
  - destruct (loadVersions_inv _ _ _ HA (or_introl eq_refl))
      as (vs' & t' & l' & HL & -> & Ht & Hl & _).
    destruct HC as (Hvs & _ & _ & _ & _ & _ & Ht' & Hl').
    cbn in Hvs. injection Hvs as <-. exists vs'. repeat split; congruence.
  - rewrite (applyVersionRules_continuation _ _ _ _ _ _ HC).
    eexists. exists (bumped c t l). split; [reflexivity|]. split; [reflexivity|].
    pose proof (bump_exclusive t l) as Hx. unfold bumped.
    destruct (patchOnly t l), (minorOrMajor t l); try discriminate;
      repeat split; trivial; discriminate.
Qed.

Lemma bump_kind_at_most_one_witness :
  patchOnly (v3 1 3 0) (v3 1 2 3) && minorOrMajor (v3 1 3 0) (v3 1 2 3) = false /\
  exists b2,
    applyVersionRules (loadedFor "104.2.0+up1.2.3" "1.3.0" "104.0.0") = (b2, Val tt) /\
    prefixSvr b2 = Some (v3 104 3 0).
Proof.
  destruct (bump_kind_at_most_one
              (bumpFor "104.2.0+up1.2.3" "1.3.0" "104.0.0")
              (loadedFor "104.2.0+up1.2.3" "1.3.0" "104.0.0")
              (mkVersions (mkV "1.2.3" (Some (v3 1 2 3)))
                          (mkV "104.2.0" (Some (v3 104 2 0)))
                          (mkV "1.3.0" (Some (v3 1 3 0)))
                          emptyVersion)
              (v3 104 0 0) (v3 104 2 0) (v3 1 3 0) (v3 1 2 3))
    as (_ & Hx & b2 & p & Hrun & Hp & _ & Hminor & _).
  - by_computation.
  - continuation_by_computation "104.0.0".
  - split; [exact Hx|]. exists b2. split; [exact Hrun|].
    rewrite Hp, (Hminor eq_refl). by_computation.
Defined.

(** C5, as stated, fails: an upstream version equal to the latest one
    passes Step A and is a continuation, yet neither bump applies and the
    repo-prefix stays as it was. *)
Lemma equal_upstream_neither_bump :
  loadVersions (bumpFor "104.2.0+up1.2.3" "1.2.3" "104.0.0")
    = (loadedFor "104.2.0+up1.2.3" "1.2.3" "104.0.0", Val tt) /\
  Continuation (loadedFor "104.2.0+up1.2.3" "1.2.3" "104.0.0")
    (mkVersions (mkV "1.2.3" (Some (v3 1 2 3)))
                (mkV "104.2.0" (Some (v3 104 2 0)))
                (mkV "1.2.3" (Some (v3 1 2 3)))
                emptyVersion)
    (v3 104 0 0) (v3 104 2 0) (v3 1 2 3) (v3 1 2 3) /\
  patchOnly (v3 1 2 3) (v3 1 2 3) = false /\
  minorOrMajor (v3 1 2 3) (v3 1 2 3) = false /\
  snd (applyVersionRules (loadedFor "104.2.0+up1.2.3" "1.2.3" "104.0.0")) = Val tt /\
  prefixTxt (fst (applyVersionRules (loadedFor "104.2.0+up1.2.3" "1.2.3" "104.0.0")))
    = Some "104.2.0".
Proof.
  split; [by_computation|].
  split; [continuation_by_computation "104.0.0"|].
  conj_by_computation.
Qed.

(* ------------------------------------------------------------------ *)
(** ** The repo-prefix across a continuation *)




Lemma bumped_major (c t l : semver.Version) :
  semver.Major (bumped c t l) = semver.Major c.
Proof. unfold bumped. destruct (patchOnly t l), (minorOrMajor t l); reflexivity. Qed.





(* ------------------------------------------------------------------ *)
(** ** calculateNextVersion *)

Lemma bind_val {A B} (m : M A) (k : A -> M B) (b b' : Bump) (a : A) :
  m b = (b', Val a) -> bind m k b = k a b'.
Proof. intros H. unfold bind. now rewrite H. Qed.

Lemma bind_fail {A B} (m : M A) (k : A -> M B) (b b' : Bump) (e : error) :
  m b = (b', Fail e) -> bind m k b = (b', Fail e).
Proof. intros H. unfold bind. now rewrite H. Qed.

Lemma bind_crash {A B} (m : M A) (k : A -> M B) (b b' : Bump) (p : panic) :
  m b = (b', Crash p) -> bind m k b = (b', Crash p).
Proof. intros H. unfold bind. now rewrite H. Qed.

Lemma frame_outputs (b b' : Bump) (x : option versions) :
  b' = setVersions b x ->
  releaseYaml b' = releaseYaml b /\ Pkg b' = Pkg b.
Proof. intros ->. split; reflexivity. Qed.

Lemma loadVersions_outputs (b b' : Bump) (r : res unit) :
  loadVersions b = (b', r) ->
  releaseYaml b' = releaseYaml b /\ Pkg b' = Pkg b.
Proof. intros H. exact (frame_outputs _ _ _ (loadVersions_frame _ _ _ H)). Qed.

Lemma applyVersionRules_outputs (b b' : Bump) (r : res unit) :
  applyVersionRules b = (b', r) ->
  releaseYaml b' = releaseYaml b /\ Pkg b' = Pkg b.
Proof. intros H. exact (frame_outputs _ _ _ (applyVersionRules_frame _ _ _ H)). Qed.

Lemma loadVersions_needs_Pkg (b b' : Bump) :
  loadVersions b = (b', Val tt) -> exists pkg, Pkg b = Some pkg.
Proof.
  intros H.
  destruct (loadVersions_inv _ _ _ H (or_introl eq_refl))
    as (vs & t & l & (pub & lrp & lv & found & up & l' & t' & _ & _ & _ & _
                      & Hup & _) & _).
  unfold upstreamVersion in Hup. destruct (Pkg b) as [pkg|]; [eauto|discriminate].
Qed.

(** The three ways [calculateNextVersion] can end once its two first steps
    have been run. *)
Lemma calculateNextVersion_steps (b : Bump) :
  (exists b1 r, loadVersions b = (b1, r) /\ r <> Val tt /\
                calculateNextVersion b = (b1, r)) \/
  (exists b1 b2 r, loadVersions b = (b1, Val tt) /\
                   applyVersionRules b1 = (b2, r) /\ r <> Val tt /\
                   calculateNextVersion b = (b2, r)) \/
  (exists b1 b2 b3 r, loadVersions b = (b1, Val tt) /\
                      applyVersionRules b1 = (b2, Val tt) /\
                      calculateNextVersion b = (b3, r) /\
                      (r <> Val tt -> b3 = b2) /\
                      (r = Val tt ->
                       exists trp tr ry pkg sv,
                         repoPrefixOf b2 = Some trp /\
                         option_map toRelease (versions_ b2) = Some tr /\
                         releaseYaml b2 = Some ry /\ Pkg b2 = Some pkg /\
                         semver.Parse (txt trp ++ "+up" ++ txt tr) = inr sv /\
                         b3 = setPkg
                                (setReleaseYaml b2
                                   (Some (setChartVersion ry
                                            (txt trp ++ "+up" ++ txt tr))))
                                (Some (setAutoGeneratedBumpVersion pkg (Some sv))))).
Proof.
  destruct (loadVersions b) as [b1 r1] eqn:E1.
  destruct r1 as [[]|e|p].
  2: { left. exists b1, (Fail e). split; [first [reflexivity | eassumption]|]. split; [discriminate|].
       unfold calculateNextVersion. now rewrite (bind_fail _ _ _ _ _ E1). }
  2: { left. exists b1, (Crash p). split; [first [reflexivity | eassumption]|]. split; [discriminate|].
       unfold calculateNextVersion. now rewrite (bind_crash _ _ _ _ _ E1). }
  right. destruct (applyVersionRules b1) as [b2 r2] eqn:E2.
  destruct r2 as [[]|e|p].
  2: { left. exists b1, b2, (Fail e).
       split; [first [reflexivity | eassumption]|]. split; [first [reflexivity | eassumption]|]. split; [discriminate|].
       unfold calculateNextVersion. rewrite (bind_val _ _ _ _ _ E1).
       now rewrite (bind_fail _ _ _ _ _ E2). }
  2: { left. exists b1, b2, (Crash p).
       split; [first [reflexivity | eassumption]|]. split; [first [reflexivity | eassumption]|]. split; [discriminate|].
       unfold calculateNextVersion. rewrite (bind_val _ _ _ _ _ E1).
       now rewrite (bind_crash _ _ _ _ _ E2). }
  right. exists b1, b2.
  destruct (loadVersions_needs_Pkg _ _ E1) as [pkg Hpkg].
  destruct (loadVersions_outputs _ _ _ E1) as [_ HP1].
  destruct (applyVersionRules_outputs _ _ _ E2) as [_ HP2].
  assert (HP : Pkg b2 = Some pkg) by congruence.
  enough (Hrest : exists b3 r,
             calculateNextVersion b = (b3, r) /\
             (r <> Val tt -> b3 = b2) /\
             (r = Val tt ->
              exists trp tr ry pkg sv,
                repoPrefixOf b2 = Some trp /\
                option_map toRelease (versions_ b2) = Some tr /\
                releaseYaml b2 = Some ry /\ Pkg b2 = Some pkg /\
                semver.Parse (txt trp ++ "+up" ++ txt tr) = inr sv /\
                b3 = setPkg
                       (setReleaseYaml b2
                          (Some (setChartVersion ry
                                   (txt trp ++ "+up" ++ txt tr))))
                       (Some (setAutoGeneratedBumpVersion pkg (Some sv)))))
    by (destruct Hrest as (b3 & r & Hrest); exists b3, r;
        split; [reflexivity|]; split; [exact E2 | exact Hrest]).
  clear Hpkg HP1 HP2.
  unfold calculateNextVersion.
  rewrite (bind_val _ _ _ _ _ E1), (bind_val _ _ _ _ _ E2).
  clear E1 E2.
  run. unfold repoPrefixOf.
  destruct (versions_ b2) as [vs|] eqn:Evs; cbn.
  2: { exists b2, (Crash nilDereference).
       split; [reflexivity|]. split; [reflexivity | discriminate]. }
  rewrite Evs. cbn.
  destruct (semver.Parse _) as [e|sv] eqn:Ep; cbn.
  { eexists b2, _. split; [reflexivity|]. split; [reflexivity | discriminate]. }
  destruct (releaseYaml b2) as [ry|] eqn:Ery; cbn.
  2: { exists b2, (Crash nilDereference).
       split; [reflexivity|]. split; [reflexivity | discriminate]. }
  rewrite HP. cbn.
  eexists _, (Val tt). split; [reflexivity|].
  split; [intros Hr; now elim Hr|].
  intros _. exists (toReleaseRepoPrefix vs), (toRelease vs), ry, pkg, sv.
  split; [reflexivity|]. split; [reflexivity|]. split; [reflexivity|].
  split; [reflexivity|]. split; [exact Ep|]. reflexivity.
Qed.

(** C7.  If [loadVersions] or [applyVersionRules] returns an error,
    [calculateNextVersion] returns that error and leaves
    [releaseYaml.ChartVersion] and [Pkg.AutoGeneratedBumpVersion] as they
    were; more generally every run that does not return [nil] leaves both
    fields unchanged, and a run that returns [nil] has passed both steps
    and the parse of the composed string before assigning the two fields. *)
Theorem calculateNextVersion_error_leaves_outputs (b : Bump) :
  (forall b1 e,
     loadVersions b = (b1, Fail e) ->
     calculateNextVersion b = (b1, Fail e) /\
     chartVersionOf b1 = chartVersionOf b /\
     autoGeneratedOf b1 = autoGeneratedOf b) /\
  (forall b1 b2 e,
     loadVersions b = (b1, Val tt) ->
     applyVersionRules b1 = (b2, Fail e) ->
     calculateNextVersion b = (b2, Fail e) /\
     chartVersionOf b2 = chartVersionOf b /\
     autoGeneratedOf b2 = autoGeneratedOf b) /\
  (forall b' r,
     calculateNextVersion b = (b', r) -> r <> Val tt ->
     chartVersionOf b' = chartVersionOf b /\
     autoGeneratedOf b' = autoGeneratedOf b) /\
  (forall b',
     calculateNextVersion b = (b', Val tt) ->
     exists b1 b2 target sv,
       loadVersions b = (b1, Val tt) /\
       applyVersionRules b1 = (b2, Val tt) /\
       semver.Parse target = inr sv /\
       chartVersionOf b' = Some target /\
       autoGeneratedOf b' = Some (Some sv)).
Proof.
  assert (Hsame : forall b1 b2 : Bump,
             releaseYaml b2 = releaseYaml b1 /\ Pkg b2 = Pkg b1 ->
             chartVersionOf b2 = chartVersionOf b1 /\
             autoGeneratedOf b2 = autoGeneratedOf b1).
  { intros b1 b2 [H1 H2]. unfold chartVersionOf, autoGeneratedOf.
    now rewrite H1, H2. }
  assert (Hframe2 : forall b1 b2 r1 r2,
             loadVersions b = (b1, r1) -> applyVersionRules b1 = (b2, r2) ->
             chartVersionOf b2 = chartVersionOf b /\
             autoGeneratedOf b2 = autoGeneratedOf b).
  { intros b1 b2 r1 r2 E1 E2. apply Hsame.
    apply loadVersions_outputs in E1. apply applyVersionRules_outputs in E2.
    destruct E1 as [E1 E1'], E2 as [E2 E2']. split; congruence. }
  split; [|split; [|split]].
  - intros b1 e E1. split.
    + unfold calculateNextVersion. now rewrite (bind_fail _ _ _ _ _ E1).
    + apply Hsame, (loadVersions_outputs _ _ _ E1).
  - intros b1 b2 e E1 E2. split.
    + unfold calculateNextVersion. rewrite (bind_val _ _ _ _ _ E1).
      now rewrite (bind_fail _ _ _ _ _ E2).
    + exact (Hframe2 _ _ _ _ E1 E2).
  - intros b' r H Hr.
    destruct (calculateNextVersion_steps b)
      as [(b1 & r1 & E1 & _ & Ec) | [(b1 & b2 & r2 & E1 & E2 & _ & Ec)
          | (b1 & b2 & b3 & r3 & E1 & E2 & Ec & Hb & _)]];
      rewrite Ec in H; injection H as <- <-.
    + apply Hsame, (loadVersions_outputs _ _ _ E1).
    + exact (Hframe2 _ _ _ _ E1 E2).
    + rewrite (Hb Hr). exact (Hframe2 _ _ _ _ E1 E2).
  - intros b' H.
    destruct (calculateNextVersion_steps b)
      as [(b1 & r1 & E1 & Hr & Ec) | [(b1 & b2 & r2 & E1 & E2 & Hr & Ec)
          | (b1 & b2 & b3 & r3 & E1 & E2 & Ec & _ & Hok)]];
      rewrite Ec in H; injection H as Hb' Hr'.
    + now elim Hr.
    + now elim Hr.
    + subst b'.
      destruct (Hok Hr') as (trp & tr & ry & pkg & sv & _ & _ & _ & _ & Hp & ->).
      exists b1, b2, (txt trp ++ "+up" ++ txt tr), sv.
      split; [exact E1|]. split; [exact E2|]. split; [exact Hp|].
      split; reflexivity.
Qed.

(** C8.  The claim fails on the code at Step C.  An upstream version with
    build metadata passes Steps A and B, the composed string
    ["104.2.1+up1.2.4+build5"] is not a semantic version (its build
    metadata contains ['+']), and [semver.MustParse] panics:
    [calculateNextVersion] does not return an error. *)
Theorem calculateNextVersion_panics_at_compose :
  snd (loadVersions (bumpFor "104.2.0+up1.2.3" "1.2.4+build5" "104.0.0")) = Val tt /\
  snd (applyVersionRules (loadedFor "104.2.0+up1.2.3" "1.2.4+build5" "104.0.0"))
    = Val tt /\
  semver.Parse "104.2.1+up1.2.4+build5" = inl (semver.BuildMetaInvalid "4+build5") /\
  snd (calculateNextVersion (bumpFor "104.2.0+up1.2.3" "1.2.4+build5" "104.0.0"))
    = Crash (mustParse "104.2.1+up1.2.4+build5" (semver.BuildMetaInvalid "4+build5")) /\
  (forall e,
     snd (calculateNextVersion (bumpFor "104.2.0+up1.2.3" "1.2.4+build5" "104.0.0"))
     <> Fail e).
Proof.
  assert (H : snd (calculateNextVersion
                     (bumpFor "104.2.0+up1.2.3" "1.2.4+build5" "104.0.0"))
              = Crash (mustParse "104.2.1+up1.2.4+build5"
                         (semver.BuildMetaInvalid "4+build5")))
    by (vm_compute; reflexivity).
  split; [vm_compute; reflexivity|].
  split; [vm_compute; reflexivity|].
  split; [vm_compute; reflexivity|].
  split; [exact H|].
  intros e. rewrite H. discriminate.
Qed.

(* ------------------------------------------------------------------ *)
(** ** parsePackageYaml *)

Lemma firstFailure_app (l1 l2 : list (option error)) :
  firstFailure (l1 ++ l2)%list
  = match firstFailure l1 with
    | Some e => Some e
    | None => firstFailure l2
    end.
Proof.
  induction l1 as [|[e|] l1 IH]; cbn; [reflexivity | reflexivity | exact IH].
Qed.

Lemma checkUpstreamOptions_checks (o : options.UpstreamOptions) :
  checkUpstreamOptions o = firstFailure (upstreamChecks o).
Proof.
  unfold checkUpstreamOptions, upstreamChecks, check.
  destruct (negb (HasSuffix (options.URL o) ".git")),
           (isSome (options.Commit o)),
           (negb (isSome (options.ChartRepoBranch o))),
           (negb (isSome (options.Subdirectory o))); reflexivity.
Qed.

Lemma checkCRDChartOptions_checks (c : options.CRDChartOptions) :
  checkCRDChartOptions c = firstFailure (crdChecks c).
Proof.
  unfold checkCRDChartOptions, crdChecks, check.
  destruct (String.eqb (options.TemplateDirectory c) ""),
           (String.eqb (options.CRDDirectory c) ""),
           (negb (options.AddCRDValidationToMainChart c)); reflexivity.
Qed.

Lemma rangeAdditionalCharts_checks (l : list charts.AdditionalChart) (b : Bump) :
  Forall (fun a => charts.acUpstream a <> None) l ->
  rangeAdditionalCharts l b
  = (b, verdict (firstFailure
                   (flat_map (fun a => (additionalUpstreamChecks a
                                        ++ additionalCRDChecks a)%list) l))).
Proof.
  induction 1 as [|a l Ha Hl IH]; [reflexivity|].
  cbn [rangeAdditionalCharts flat_map]. rewrite !firstFailure_app.
  unfold additionalUpstreamChecks, additionalCRDChecks.
  destruct (charts.acUpstream a) as [o|]; [|congruence].
  rewrite <- checkUpstreamOptions_checks.
  rewrite (bind_val _ _ b b o) by reflexivity.
  destruct (checkUpstreamOptions o) as [e|]; [reflexivity|].
  rewrite (bind_val _ _ b b tt) by reflexivity.
  destruct (charts.CRDChartOptions a) as [c|].
  - rewrite <- checkCRDChartOptions_checks.
    destruct (checkCRDChartOptions c) as [e|]; [reflexivity|].
    rewrite (bind_val _ _ b b tt) by reflexivity. exact IH.
  - rewrite (bind_val _ _ b b tt) by reflexivity. exact IH.
Qed.

Lemma validatorErrors_distinct : NoDup validatorErrors.
Proof.
  unfold validatorErrors.
  repeat (constructor; [cbn; intuition discriminate|]). constructor.
Qed.

(** C6 (as amended).  [parsePackageYaml] rejects an empty and a multiple
    package list, and on a single package evaluates its checks in a fixed
    order, the first failure winning, each check with an error identity of
    its own, and returns [nil] when none fails: auto flag true, chart name
    non-empty, chart-level version unset, package-level version unset,
    doNotRelease false, chart working directory non-empty, the upstream
    check of the primary chart (URL ends with [.git], commit absent, branch
    present, subdirectory present, first violation in that order), and then
    for each additional chart in turn its upstream check followed, when it
    declares CRD options, by template directory non-empty, CRD directory
    non-empty and the add-CRD-validation flag true, before the next
    additional chart is examined. *)
Theorem parsePackageYaml_check_order (b : Bump) (pkg : charts.Package)
    (H : upstreamsPresent pkg) :
  parsePackageYaml [pkg] b
    = (setPkg b (Some pkg), verdict (firstFailure (checksInCodeOrder pkg))) /\
  (forall o, checkUpstreamOptions o = firstFailure (upstreamChecks o)) /\
  parsePackageYaml [] b = (b, Fail errNoPackage) /\
  (forall p q rest, parsePackageYaml (p :: q :: rest) b = (b, Fail errMultiplePackages)) /\
  NoDup validatorErrors.
Proof.
  split; [|split; [apply checkUpstreamOptions_checks|]];
    [|split; [reflexivity|split; [reflexivity | apply validatorErrors_distinct]]].
  unfold checksInCodeOrder. rewrite !firstFailure_app.
  unfold rootChecks, check. cbn [parsePackageYaml].
  rewrite (bind_val _ _ b b b) by reflexivity.
  rewrite (bind_val _ _ b (setPkg b (Some pkg)) tt) by reflexivity.
  destruct (negb (charts.Auto pkg)); [reflexivity|].
  destruct (String.eqb (charts.Name pkg) ""); [reflexivity|].
  destruct (isSome (charts.Version pkg)); [reflexivity|].
  destruct (isSome (charts.PackageVersion pkg)); [reflexivity|].
  destruct (charts.DoNotRelease pkg); [reflexivity|].
  destruct (String.eqb (charts.WorkingDir (charts.Chart_ pkg)) ""); [reflexivity|].
  cbn [firstFailure]. rewrite <- checkUpstreamOptions_checks.
  destruct (checkUpstreamOptions (charts.Upstream (charts.Chart_ pkg))) as [e|];
    [reflexivity|].
  rewrite (bind_val _ _ (setPkg b (Some pkg)) (setPkg b (Some pkg)) tt)
    by reflexivity.
  unfold bind. rewrite (rangeAdditionalCharts_checks _ _ H).
  destruct (firstFailure _); reflexivity.
Qed.

Lemma parsePackageYaml_check_order_witness :
  parsePackageYaml [pkgValid] emptyBump = (setPkg emptyBump (Some pkgValid), Val tt) /\
  parsePackageYaml [pkgTwoAdditional] emptyBump
    = (setPkg emptyBump (Some pkgTwoAdditional), Fail errAdditionalChartWorkDir).
Proof.
  split.
  - apply (parsePackageYaml_check_order emptyBump pkgValid).
    repeat constructor; discriminate.
  - apply (parsePackageYaml_check_order emptyBump pkgTwoAdditional).
    repeat constructor; discriminate.
Defined.

(** C6, as stated, fails: with two additional charts the CRD options of
    the first are checked before the upstream of the second, so the code
    returns the CRD error where the stated order (all upstream checks, then
    all CRD checks) gives the upstream error. *)
Lemma crd_check_precedes_next_upstream :
  upstreamsPresent pkgTwoAdditional /\
  snd (parsePackageYaml [pkgTwoAdditional] emptyBump) = Fail errAdditionalChartWorkDir /\
  verdict (firstFailure (checksInSpecOrder pkgTwoAdditional)) = Fail errChartURL /\
  snd (parsePackageYaml [pkgTwoAdditional] emptyBump)
    <> verdict (firstFailure (checksInSpecOrder pkgTwoAdditional)).
Proof.
  split; [repeat constructor; discriminate|].
  split; [by_computation|]. split; [by_computation|].
  intros E. vm_compute in E. discriminate E.
Qed.

(* ================================================================== *)
(** * Further properties of the package *)

(* ------------------------------------------------------------------ *)
(** ** More on strings *)

Lemma append_assoc3 (a b c : string) : ((a ++ b) ++ c = a ++ (b ++ c))%string.
Proof. induction a as [|x a IH]; cbn; [reflexivity | now rewrite IH]. Qed.

Lemma HasPrefix_refl (s : string) : HasPrefix s s = true.
Proof. induction s as [|c s IH]; cbn; [reflexivity|]. now rewrite Ascii.eqb_refl. Qed.

Lemma HasPrefix_take_self (n : nat) (s : string) : HasPrefix s (take n s) = true.
Proof.
  rewrite <- (take_drop n s) at 1. apply HasPrefix_app, HasPrefix_refl.
Qed.

Lemma HasPrefix_app_same (a x y : string) :
  HasPrefix (a ++ x) (a ++ y) = HasPrefix x y.
Proof.
  induction a as [|c a IH]; [reflexivity|].
  change (HasPrefix (String c (a ++ x)) (String c (a ++ y)) = HasPrefix x y).
  rewrite HasPrefix_cons, Ascii.eqb_refl. exact IH.
Qed.

Lemma Contains_false_Index (s sep : string) :
  Contains s sep = false <-> Index s sep < 0.
Proof. unfold Contains. apply Z.leb_gt. Qed.

Lemma upToSep_no_sep (s sep : string) :
  sep <> "" -> Contains (upToSep s sep) sep = false.
Proof.
  intros Hsep. unfold upToSep. destruct (Index s sep <? 0) eqn:E.
  - apply Contains_false_Index. now apply Z.ltb_lt.
  - apply Index_take_clean; [assumption | now apply Z.ltb_ge].
Qed.

Lemma upToSep_prefix (s sep : string) : HasPrefix s (upToSep s sep) = true.
Proof.
  unfold upToSep. destruct (Index s sep <? 0);
    [apply HasPrefix_refl | apply HasPrefix_take_self].
Qed.

Lemma parse_parts_clean (s : string) :
  exists p v,
    parseRepoPrefixVersionIfAny s = Some (p, v, Contains s marker) /\
    Contains p marker = false /\ Contains v marker = false.
Proof.
  destruct (Contains s marker) eqn:E.
  - rewrite (parse_found s E). do 2 eexists. split; [reflexivity|].
    assert (Hi : 0 <= Index s marker) by (unfold Contains in E; now apply Z.leb_le).
    split; [apply Index_take_clean; [apply marker_nonempty | exact Hi]|].
    apply upToSep_no_sep, marker_nonempty.
  - rewrite (parse_not_found s E). exists "", s.
    split; [reflexivity|]. split; [reflexivity | exact E].
Qed.

(** X1.  Whatever the input, neither part returned by
    [parseRepoPrefixVersionIfAny] contains the marker ["+up"], [found]
    tells whether the input contains it, and the parts put together again
    (["<repoPrefix>+up<version>"] when found, [version] otherwise) are a
    prefix of the input. *)
Theorem parse_parts_marker_free (s : string) :
  exists p v,
    parseRepoPrefixVersionIfAny s = Some (p, v, Contains s marker) /\
    Contains p marker = false /\
    Contains v marker = false /\
    HasPrefix s (if Contains s marker then p ++ marker ++ v else v) = true.
Proof.
  destruct (parse_parts_clean s) as (p & v & Hp & Hcp & Hcv).
  exists p, v. split; [exact Hp|]. split; [exact Hcp|]. split; [exact Hcv|].
  destruct (Contains s marker) eqn:E.
  - rewrite (parse_found s E) in Hp. injection Hp as <- <-.
    assert (Hi : 0 <= Index s marker) by (unfold Contains in E; now apply Z.leb_le).
    rewrite (Index_split s marker Hi) at 1.
    rewrite !HasPrefix_app_same. apply upToSep_prefix.
  - rewrite (parse_not_found s E) in Hp. injection Hp as <- <-.
    apply HasPrefix_refl.
Qed.

(* ------------------------------------------------------------------ *)
(** ** parseBranchVersion *)

(** X2.  [parseBranchVersion] succeeds exactly on the branches of the form
    ["dev-v<line>"] and then returns [<line>] (the empty line for the
    branch ["dev-v"] itself); on every other branch it returns the empty
    string and [errNotDevBranch]. *)
Theorem parseBranchVersion_dev_branches (targetBranch line : string) :
  (parseBranchVersion targetBranch = (line, None) <->
   targetBranch = "dev-v" ++ line) /\
  (parseBranchVersion targetBranch = ("", Some errNotDevBranch) <->
   HasPrefix targetBranch "dev-v" = false).
Proof.
  unfold parseBranchVersion, TrimPrefix.
  destruct (HasPrefix targetBranch "dev-v") eqn:E; cbn [negb]; split; split.
  - intros [= <-]. now apply HasPrefix_split in E.
  - intros ->. reflexivity.
  - discriminate.
  - discriminate.
  - discriminate.
  - intros ->. now rewrite (HasPrefix_self "dev-v" line) in E.
  - reflexivity.
  - reflexivity.
Qed.

(* ------------------------------------------------------------------ *)
(** ** parseChartFromPackage *)

Lemma Index_nonneg_nonempty (s sep : string) :
  sep <> "" -> 0 <= Index s sep -> (1 <= String.length s)%nat.
Proof.
  intros Hsep H. destruct s; [|cbn; lia].
  rewrite Index_empty in H by assumption. lia.
Qed.

(** The pieces of [Split]: one more than the separators counted, the last
    one free of the separator and closing the string. *)
Lemma Split_shape (sep : string) :
  sep <> "" ->
  forall (n : nat) (s : string), (String.length s <= n)%nat ->
  exists l x,
    Split s sep = (l ++ [x])%list /\
    List.length l = Count s sep /\
    Contains x sep = false /\
    (l = [] -> s = x) /\
    (l <> [] -> exists pre, s = pre ++ sep ++ x).
Proof.
  intros Hsep. induction n as [|n IH]; intros s Hn.
  - destruct s; [|cbn in Hn; lia].
    exists [], "". rewrite Split_none, Count_none
      by (rewrite Index_empty by assumption; lia).
    repeat split; try reflexivity; try congruence.
    apply Contains_false_Index. rewrite Index_empty by assumption. lia.
  - destruct (Index s sep <? 0) eqn:E.
    + apply Z.ltb_lt in E. exists [], s.
      rewrite Split_none, Count_none by assumption.
      repeat split; try reflexivity; try congruence.
      now apply Contains_false_Index.
    + apply Z.ltb_ge in E.
      pose proof (Index_nonneg_nonempty s sep Hsep E) as Hlen.
      pose proof (len_pos sep Hsep) as Hsp.
      destruct (IH (drop (Z.to_nat (Index s sep + len sep)) s))
        as (l & x & Hsplit & Hcount & Hx & Hnil & Hcons).
      { rewrite length_drop. lia. }
      exists (take (Z.to_nat (Index s sep)) s :: l), x.
      rewrite Split_some, Count_some, Hsplit by assumption.
      split; [reflexivity|]. split; [cbn; now rewrite Hcount|].
      split; [exact Hx|]. split; [discriminate|]. intros _.
      destruct l as [|y l].
      * exists (take (Z.to_nat (Index s sep)) s).
        rewrite <- (Hnil eq_refl). now apply Index_split.
      * destruct Hcons as [pre Hpre]; [discriminate|].
        exists (take (Z.to_nat (Index s sep)) s ++ sep ++ pre).
        rewrite !append_assoc3, <- Hpre. now apply Index_split.
Qed.

Lemma nth_error_last_snoc (l : list string) (x : string) :
  nth_error (l ++ [x]) (List.length (l ++ [x]) - 1) = Some x.
Proof.
  rewrite List.length_app. cbn [List.length].
  replace (List.length l + 1 - 1)%nat with (List.length l) by lia.
  rewrite nth_error_app2 by lia. now rewrite Nat.sub_diag.
Qed.

(** X3.  [parseChartFromPackage] accepts a package path with at most three
    ["/"] and sets [targetChart] to its last component: the whole path when
    it has no ["/"], the text after the last ["/"] otherwise (so the chart
    name holds no ["/"], and is empty for a path that ends in ["/"]).  A
    path with four or more ["/"] is rejected with [errBadPackage] and the
    receiver is left as it was. *)
Theorem parseChartFromPackage_last_component (targetPackage : string) (b : Bump) :
  ((Count targetPackage "/" <= 3)%nat ->
   exists chart,
     parseChartFromPackage targetPackage b = (setTargetChart b chart, Val tt) /\
     Contains chart "/" = false /\
     (targetPackage = chart \/ exists pre, targetPackage = pre ++ "/" ++ chart)) /\
  ((3 < Count targetPackage "/")%nat ->
   parseChartFromPackage targetPackage b = (b, Fail errBadPackage)).
Proof.
  assert (Hsep : "/" <> "") by discriminate.
  destruct (Split_shape "/" Hsep _ targetPackage (Nat.le_refl _))
    as (l & x & Hsplit & Hcount & Hx & Hnil & Hcons).
  unfold parseChartFromPackage. rewrite Hsplit.
  assert (Hlen : List.length (l ++ [x]) = S (Count targetPackage "/"))
    by (rewrite List.length_app; cbn; lia).
  split; intros Hc.
  - exists x. split; [|split; [exact Hx|]].
    + destruct l as [|y l].
      * reflexivity.
      * assert (E1 : Nat.eqb (List.length ((y :: l) ++ [x])) 1 = false)
          by (apply Nat.eqb_neq; rewrite Hlen; cbn in Hcount; lia).
        assert (E2 : Nat.ltb 1 (List.length ((y :: l) ++ [x]))
                     && Nat.leb (List.length ((y :: l) ++ [x])) 4 = true).
        { apply andb_true_iff. split;
            [apply Nat.ltb_lt | apply Nat.leb_le]; rewrite Hlen;
            cbn in Hcount; lia. }
        rewrite E1, E2.
        unfold index. rewrite nth_error_last_snoc. reflexivity.
    + destruct l as [|y l]; [left; now apply Hnil | right; apply Hcons; discriminate].
  - assert (E1 : Nat.eqb (List.length (l ++ [x])) 1 = false)
      by (apply Nat.eqb_neq; lia).
    assert (E2 : Nat.ltb 1 (List.length (l ++ [x]))
                 && Nat.leb (List.length (l ++ [x])) 4 = false).
    { apply andb_false_iff. right. apply Nat.leb_gt. lia. }
    now rewrite E1, E2.
Qed.

Lemma parseChartFromPackage_last_component_witness :
  exists chart,
    parseChartFromPackage "rancher-istio/1.22/rancher-istio" emptyBump
      = (setTargetChart emptyBump chart, Val tt) /\
    Contains chart "/" = false /\
    ("rancher-istio/1.22/rancher-istio" = chart \/
     exists pre, "rancher-istio/1.22/rancher-istio" = pre ++ "/" ++ chart).
Proof.
  apply (parseChartFromPackage_last_component
           "rancher-istio/1.22/rancher-istio" emptyBump).
  vm_compute. lia.
Defined.

(* ------------------------------------------------------------------ *)
(** ** The outcomes of loadVersions *)

Lemma loadVersions_meaning_early (b b' : Bump) (r : res unit) :
  loadVersions b = (b', r) ->
  r <> Val tt -> r <> Fail errBumpVersion ->
  loadVersionsMeaning b r.
Proof.
  unfold loadVersions, loadVersionsMeaning, publishedParts, latestPublished,
    upstreamVersion.
  intros H Hv Hb. run_in H.
  repeat (break_match; cbn in * );
    injection H as <- <-; try congruence;
    repeat match goal with
           | E : String.eqb _ "" = true |- _ => apply String.eqb_eq in E
           | E : parseRepoPrefixVersionIfAny ?x = None |- _ =>
               destruct (parse_total x) as (? & ? & ? & ?); congruence
           | E : (_, _) = (_, _) |- _ => injection E as -> ->
           end; subst; try congruence.
  all: try (do 3 eexists; split; [reflexivity|];
            first [ left; split; [reflexivity | eassumption]
                  | right; left; eassumption
                  | right; right; eexists; split; [reflexivity | eassumption] ]).
  all: try (do 2 eexists; repeat split; try eassumption;
            match goal with
            | E : parseRepoPrefixVersionIfAny ?x = Some (_, _, true) |- _ =>
                unfold parseRepoPrefixVersionIfAny in E;
                destruct (Contains x marker); [reflexivity|congruence]
            end).
Qed.

(** X4.  Every outcome of [loadVersions] names a defect of its inputs:
    [errChartLatestVersion] an empty published version,
    [errChartUpstreamVersion] an empty upstream version,
    [errChartUpstreamVersionWrong] an upstream version that is a semantic
    version but carries the marker, a semver error one of the three texts
    it parses (the two parts of the published version, the upstream
    version), [errBumpVersion] a regression; an index panic a chart without
    published versions, a nil panic a missing package; and [nil] bare
    versions in order.  It returns no other error and does not panic
    otherwise. *)
Theorem loadVersions_outcome_meaning (b : Bump) :
  loadVersionsMeaning b (snd (loadVersions b)).
Proof.
  destruct (loadVersions b) as [b' r] eqn:H. cbn [snd].
  assert (Hd : {r = Val tt} + {r = Fail errBumpVersion}
               + {r <> Val tt /\ r <> Fail errBumpVersion}).
  { destruct r as [[]|e|p]; [left; left; reflexivity | | right; split; discriminate].
    destruct e; try (right; split; discriminate). left; right; reflexivity. }
  destruct Hd as [[-> | ->] | [Hv Hb]].
  - destruct (loadVersions_inv _ _ _ H (or_introl eq_refl))
      as (vs & t & l & HL & _ & Ht & Hl & Hr).
    exists t, l. split; [now exists vs|].
    destruct (semver.LT t l); [discriminate | reflexivity].
  - destruct (loadVersions_inv _ _ _ H (or_intror eq_refl))
      as (vs & t & l & HL & _ & Ht & Hl & Hr).
    exists t, l. split; [now exists vs|].
    destruct (semver.LT t l); [reflexivity | discriminate].
  - exact (loadVersions_meaning_early _ _ _ H Hv Hb).
Qed.

(** X5.  [loadVersions] panics with an index out of range exactly when the
    target chart has no published version (its key is missing from the
    assets map, or its list is empty), and returns [errChartLatestVersion]
    exactly when the latest published version is the empty string. *)
Theorem loadVersions_without_history (b : Bump) :
  (snd (loadVersions b) = Crash indexOutOfRange <-> latestPublished b = None) /\
  (snd (loadVersions b) = Fail errChartLatestVersion <->
   latestPublished b = Some "").
Proof.
  assert (Hm : forall r, snd (loadVersions b) = r ->
                 r <> Val tt -> r <> Fail errBumpVersion ->
                 loadVersionsMeaning b r).
  { intros r E. destruct (loadVersions b) as [b' r'] eqn:H. cbn in E. subst r'.
    exact (loadVersions_meaning_early _ _ _ H). }
  split; split.
  - intros E. apply (Hm _ E); discriminate.
  - unfold latestPublished. intros E. unfold loadVersions. run.
    destruct (mapGet [] (assetsVersionsMap b) (targetChart b)); [reflexivity|].
    discriminate.
  - intros E. apply (Hm _ E); discriminate.
  - unfold latestPublished. intros E. unfold loadVersions. run.
    destruct (mapGet [] (assetsVersionsMap b) (targetChart b)) as [|a l];
      [discriminate|].
    injection E as ->. reflexivity.
Qed.

Lemma Make_empty : semver.Make "" = inl semver.VersionStringEmpty.
Proof. reflexivity. Qed.

(** X6.  After a successful [loadVersions] the texts and the parsed forms
    agree: [latest] and [toRelease] hold the upstream part of the published
    version and the upstream version, each with its parse;
    [latestRepoPrefix] holds the repo-prefix part with its parse when the
    published version has a marker and is empty (no text, nil pointer)
    otherwise; [toReleaseRepoPrefix] is still empty; none of the texts
    contains the marker; nothing but [b.versions] has changed. *)
Theorem loadVersions_synchronised (b b' : Bump)
    (H : loadVersions b = (b', Val tt)) :
  exists vs found,
    b' = setVersions b (Some vs) /\
    publishedParts b
      = Some (txt (latestRepoPrefix vs), txt (latest vs), found) /\
    upstreamVersion b = Some (txt (toRelease vs)) /\
    synced (latest vs) /\ synced (toRelease vs) /\
    (if found : bool then synced (latestRepoPrefix vs)
     else latestRepoPrefix vs = emptyVersion) /\
    toReleaseRepoPrefix vs = emptyVersion /\
    Contains (txt (latest vs)) marker = false /\
    Contains (txt (latestRepoPrefix vs)) marker = false /\
    Contains (txt (toRelease vs)) marker = false.
Proof.
  destruct (loadVersions_inv _ _ _ H (or_introl eq_refl))
    as (vs & t & l & HL & Hb & _).
  destruct HL as (pub & lrp & lv & found & up & l' & t' & Hpub & Hne & Hparse
                  & Hl & Hup & Hune & Ht & Hc & El & Et & Ep & Elrp).
  destruct (parse_parts_clean pub) as (p & v & Hp & Hcp & Hcv).
  rewrite Hparse in Hp. injection Hp as <- <- ->.
  exists vs, (Contains pub marker).
  assert (Etxt : txt (latestRepoPrefix vs) = lrp).
  { destruct (Contains pub marker) eqn:Ec.
    - destruct Elrp as (lp & _ & ->). reflexivity.
    - rewrite Elrp. rewrite (parse_not_found pub Ec) in Hparse.
      now injection Hparse as <- _. }
  rewrite Etxt, El, Et. cbn [txt svr].
  split; [exact Hb|]. split; [unfold publishedParts; now rewrite Hpub|].
  split; [exact Hup|].
  split; [exists l'; now split|]. split; [exists t'; now split|].
  split.
  { destruct (Contains pub marker); [|exact Elrp].
    destruct Elrp as (lp & Hlp & ->). exists lp. now split. }
  split; [exact Ep|]. now repeat split.
Qed.

Lemma loadVersions_synchronised_witness :
  exists vs found,
    loadedFor "104.2.0+up1.2.3" "1.2.4" "104.0.0"
      = setVersions (bumpFor "104.2.0+up1.2.3" "1.2.4" "104.0.0") (Some vs) /\
    publishedParts (bumpFor "104.2.0+up1.2.3" "1.2.4" "104.0.0")
      = Some (txt (latestRepoPrefix vs), txt (latest vs), found) /\
    synced (latest vs) /\ synced (toRelease vs).
Proof.
  destruct (loadVersions_synchronised
              (bumpFor "104.2.0+up1.2.3" "1.2.4" "104.0.0")
              (loadedFor "104.2.0+up1.2.3" "1.2.4" "104.0.0"))
    as (vs & found & Hb & Hp & _ & Hl & Ht & _).
  - by_computation.
  - exists vs, found. repeat split; assumption.
Defined.

(* ------------------------------------------------------------------ *)
(** ** applyVersionRules: rules that cannot be used *)

Lemma mapGet_missing {V : Type} (zero : V) (m : list (string * V)) (k : string) :
  (forall v, ~ In (k, v) m) -> mapGet zero m k = zero.
Proof.
  induction m as [|[k' v'] m IH]; intros H; cbn; [reflexivity|].
  destruct (String.eqb k' k) eqn:E.
  - apply String.eqb_eq in E. subst k'. elim (H v'). now left.
  - apply IH. intros v Hin. apply (H v). now right.
Qed.

Lemma applyVersionRules_rule_error (b : Bump) (rule : string)
    (e : semver.ParseError) :
  ruleMin b = Some rule -> semver.Make rule = inl e ->
  applyVersionRules b = (b, Fail (errSemver e)).
Proof.
  unfold ruleMin. intros Hrule He.
  destruct (versionRules b) as [vr|] eqn:Evr; [|discriminate].
  cbn in Hrule. injection Hrule as Hrule.
  unfold applyVersionRules. run. rewrite Evr. cbn. rewrite Hrule, He. reflexivity.
Qed.

(** X7.  [applyVersionRules] cannot use a missing or malformed rule and
    then leaves the receiver untouched: without version rules (nil
    pointer) it panics; when the minimum version of the branch line does
    not parse it returns the parse error; when the branch line has no entry
    in the rules, the map yields the empty string and the error is the one
    for an empty version string. *)
Theorem applyVersionRules_unusable_rule (b : Bump) :
  (versionRules b = None -> applyVersionRules b = (b, Crash nilDereference)) /\
  (forall rule e,
     ruleMin b = Some rule -> semver.Make rule = inl e ->
     applyVersionRules b = (b, Fail (errSemver e))) /\
  (forall vr,
     versionRules b = Some vr ->
     (forall v, ~ In (lifecycle.BranchVersion vr, v) (lifecycle.Rules vr)) ->
     applyVersionRules b = (b, Fail (errSemver semver.VersionStringEmpty))).
Proof.
  split; [|split].
  - intros E. unfold applyVersionRules. run. now rewrite E.
  - apply applyVersionRules_rule_error.
  - intros vr Evr Hmiss.
    apply (applyVersionRules_rule_error b ""); [|apply Make_empty].
    unfold ruleMin. rewrite Evr. cbn.
    now rewrite (mapGet_missing _ _ _ Hmiss).
Qed.

Lemma applyVersionRules_unusable_rule_witness :
  applyVersionRules bumpWithoutRule
    = (bumpWithoutRule, Fail (errSemver semver.VersionStringEmpty)).
Proof.
  apply (proj2 (proj2 (applyVersionRules_unusable_rule bumpWithoutRule))
           (lifecycle.mkVersionRules
              [("2.9", lifecycle.mkBounds "104.0.0" "")] "2.10")).
  - reflexivity.
  - intros v [E | []]. discriminate E.
Defined.

(* ------------------------------------------------------------------ *)
(** ** applyVersionRules: what it writes *)

Lemma writeCell_same (b : Bump) (vs : versions) :
  versions_ b = Some vs ->
  b = setVersions b
        (Some (writeCell vs cToReleaseRepoPrefix (toReleaseRepoPrefix vs))).
Proof. destruct b, vs. cbn. intros ->. reflexivity. Qed.

Lemma applyVersionRules_cells (b b' : Bump) (r : res unit) (vs : versions) :
  applyVersionRules b = (b', r) -> versions_ b = Some vs ->
  exists x, b' = setVersions b (Some (writeCell vs cToReleaseRepoPrefix x)).
Proof.
  unfold applyVersionRules. intros H Hvs. run_in H.
  rewrite ?Hvs in H. cbn in H.
  repeat (break_match; cbn in *; rewrite ?Hvs in *; cbn in * );
    injection H as <- <-;
    first [ eexists; reflexivity
          | exists (toReleaseRepoPrefix vs); now apply writeCell_same ].
Qed.

(** X8.  Whatever its outcome, [applyVersionRules] changes nothing but the
    cell [b.versions.toReleaseRepoPrefix]: [latest], [latestRepoPrefix],
    [toRelease] and every other field of the receiver are as before; and
    run before [loadVersions] (nil [b.versions]) it changes nothing and
    does not return [nil]. *)
Theorem applyVersionRules_writes_one_cell (b b' : Bump) (r : res unit)
    (H : applyVersionRules b = (b', r)) :
  (forall vs, versions_ b = Some vs ->
     exists x, b' = setVersions b (Some (writeCell vs cToReleaseRepoPrefix x))) /\
  (versions_ b = None -> b' = b /\ r <> Val tt).
Proof.
  split.
  - intros vs Hvs. exact (applyVersionRules_cells _ _ _ _ H Hvs).
  - intros Hvs. unfold applyVersionRules in H. run_in H.
    rewrite ?Hvs in H.
    repeat (break_match; cbn in *; rewrite ?Hvs in *; cbn in * );
      injection H as <- <-; (split; [reflexivity | discriminate]).
Qed.

Lemma applyVersionRules_writes_one_cell_witness :
  exists x,
    fst (applyVersionRules (loadedFor "104.2.0+up1.2.3" "1.2.4" "104.0.0"))
    = setVersions (loadedFor "104.2.0+up1.2.3" "1.2.4" "104.0.0")
        (Some (writeCell
                 (mkVersions (mkV "1.2.3" (Some (v3 1 2 3)))
                             (mkV "104.2.0" (Some (v3 104 2 0)))
                             (mkV "1.2.4" (Some (v3 1 2 4)))
                             emptyVersion)
                 cToReleaseRepoPrefix x)).
Proof.
  apply (applyVersionRules_writes_one_cell
           (loadedFor "104.2.0+up1.2.3" "1.2.4" "104.0.0")
           (fst (applyVersionRules (loadedFor "104.2.0+up1.2.3" "1.2.4" "104.0.0")))
           (snd (applyVersionRules (loadedFor "104.2.0+up1.2.3" "1.2.4" "104.0.0")))).
  - now destruct (applyVersionRules (loadedFor "104.2.0+up1.2.3" "1.2.4" "104.0.0")).
  - by_computation.
Defined.

(* ------------------------------------------------------------------ *)
(** ** Step B after Step A *)

Lemma ruleMin_setVersions (b : Bump) (x : option versions) :
  ruleMin (setVersions b x) = ruleMin b.
Proof. reflexivity. Qed.

(** After a successful [loadVersions], a rule that parses puts
    [applyVersionRules] in one of its two cases. *)
Lemma loaded_cases (b : Bump) (vs : versions) (rule : string)
    (r : semver.Version) :
  Loaded b vs -> ruleMin b = Some rule -> semver.Make rule = inr r ->
  Transition (setVersions b (Some vs)) vs rule r \/
  exists c t l, Continuation (setVersions b (Some vs)) vs r c t l.
Proof.
  intros (pub & lrp & lv & found & up & l & t & _ & _ & _ & Hl & _ & _ & Ht
          & _ & El & Et & _ & Elrp) Hrule Hr.
  destruct found.
  - destruct Elrp as (c & Hc & Ec).
    destruct (semver.Major r =? semver.Major c) eqn:Em.
    + right. exists c, t, l. apply Z.eqb_eq in Em.
      unfold Continuation. rewrite Ec, El, Et. cbn [txt svr].
      split; [reflexivity|]. split; [exists rule; now split|].
      split; [intros ->; rewrite Make_empty in Hc; discriminate|].
      repeat split; assumption.
    + left. apply Z.eqb_neq in Em. unfold Transition.
      split; [reflexivity|]. split; [exact Hrule|]. split; [exact Hr|].
      right. exists c. rewrite Ec. now split.
  - left. unfold Transition.
    split; [reflexivity|]. split; [exact Hrule|]. split; [exact Hr|].
    left. now rewrite Elrp.
Qed.

(** X9.  Once [loadVersions] has succeeded, [applyVersionRules] can fail
    only through the branch rule: if the rule's minimum version does not
    parse it returns that parse error and changes nothing; if it parses,
    [applyVersionRules] returns [nil], without panic, and the repo-prefix
    it leaves has the major of the rule. *)
Theorem applyVersionRules_after_loadVersions (b b1 : Bump) (rule : string)
    (HA : loadVersions b = (b1, Val tt))
    (Hrule : ruleMin b = Some rule) :
  (forall e, semver.Make rule = inl e ->
             applyVersionRules b1 = (b1, Fail (errSemver e))) /\
  (forall r, semver.Make rule = inr r ->
     exists b2 p,
       applyVersionRules b1 = (b2, Val tt) /\
       prefixSvr b2 = Some p /\
       semver.Major p = semver.Major r).
Proof.
  destruct (loadVersions_inv _ _ _ HA (or_introl eq_refl))
    as (vs & t & l & HL & -> & _).
  split.
  - intros e He. apply (applyVersionRules_rule_error _ rule); assumption.
  - intros r Hr.
    destruct (loaded_cases b vs rule r HL Hrule Hr) as [HT | (c & t' & l' & HC)].
    + rewrite (applyVersionRules_transition _ _ _ _ HT).
      do 2 eexists. split; [reflexivity|]. split; reflexivity.
    + rewrite (applyVersionRules_continuation _ _ _ _ _ _ HC).
      do 2 eexists. split; [reflexivity|]. split; [reflexivity|].
      rewrite bumped_major.
      destruct HC as (_ & _ & _ & _ & _ & Hm & _). now symmetry.
Qed.

Lemma applyVersionRules_after_loadVersions_witness :
  exists b2 p,
    applyVersionRules (loadedFor "1.2.3" "1.2.4" "105.0.0") = (b2, Val tt) /\
    prefixSvr b2 = Some p /\
    semver.Major p = 105.
Proof.
  destruct (applyVersionRules_after_loadVersions
              (bumpFor "1.2.3" "1.2.4" "105.0.0")
              (loadedFor "1.2.3" "1.2.4" "105.0.0") "105.0.0")
    as [_ Hok].
  - by_computation.
  - by_computation.
  - exact (Hok (v3 105 0 0) eq_refl).
Defined.

(* ------------------------------------------------------------------ *)
(** ** The result of calculateNextVersion *)

(** X10.  When [calculateNextVersion] returns [nil], the chart version it
    has written is ["<repo-prefix>+up<upstream version>"]: the text of
    [toReleaseRepoPrefix], the marker, and exactly the upstream version the
    package reported; [AutoGeneratedBumpVersion] is the parse of that
    string; the release descriptor was present (with a nil [releaseYaml]
    the method never returns [nil]); and apart from these two fields and
    [b.versions] the receiver is unchanged. *)
Theorem calculateNextVersion_result (b b' : Bump)
    (H : calculateNextVersion b = (b', Val tt)) :
  exists p up sv ry pkg,
    upstreamVersion b = Some up /\
    prefixTxt b' = Some p /\
    chartVersionOf b' = Some (p ++ "+up" ++ up) /\
    semver.Parse (p ++ "+up" ++ up) = inr sv /\
    autoGeneratedOf b' = Some (Some sv) /\
    releaseYaml b = Some ry /\ Pkg b = Some pkg /\
    b' = setPkg
           (setReleaseYaml (setVersions b (versions_ b'))
              (Some (setChartVersion ry (p ++ "+up" ++ up))))
           (Some (setAutoGeneratedBumpVersion pkg (Some sv))).
Proof.
  destruct (calculateNextVersion_steps b)
    as [(b1 & r1 & E1 & Hr & Ec) | [(b1 & b2 & r2 & E1 & E2 & Hr & Ec)
        | (b1 & b2 & b3 & r3 & E1 & E2 & Ec & _ & Hok)]];
    rewrite Ec in H; injection H as Hb' Hr'.
  - now elim Hr.
  - now elim Hr.
  - subst b3.
    destruct (Hok Hr') as (trp & tr & ry & pkg & sv & Htrp & Htr & Hry & Hpkg
                           & Hp & Hb3).
    destruct (loadVersions_inv _ _ _ E1 (or_introl eq_refl))
      as (vs & t & l & HL & Hb1 & _).
    destruct HL as (pub & lrp & lv & found & up & l0 & t0 & _ & _ & _ & _
                    & Hup & _ & _ & _ & _ & Et & _).
    assert (Hvs1 : versions_ b1 = Some vs) by (now rewrite Hb1).
    destruct (applyVersionRules_cells _ _ _ _ E2 Hvs1) as [x Hb2].
    assert (Htxt : txt tr = up).
    { rewrite Hb2 in Htr. cbn in Htr. injection Htr as <-. now rewrite Et. }
    rewrite Htxt in *.
    assert (Hry0 : releaseYaml b = Some ry) by (rewrite Hb2, Hb1 in Hry; exact Hry).
    assert (Hpkg0 : Pkg b = Some pkg) by (rewrite Hb2, Hb1 in Hpkg; exact Hpkg).
    exists (txt trp), up, sv, ry, pkg.
    split; [exact Hup|].
    split.
    { rewrite Hb3. unfold prefixTxt.
      change (repoPrefixOf (setPkg (setReleaseYaml b2 ?x) ?y))
        with (repoPrefixOf b2).
      now rewrite Htrp. }
    split; [now rewrite Hb3|]. split; [exact Hp|].
    split; [now rewrite Hb3|]. split; [exact Hry0|]. split; [exact Hpkg0|].
    rewrite Hb3. rewrite Hb2, Hb1. reflexivity.
Qed.

Lemma calculateNextVersion_result_witness :
  exists p up sv,
    upstreamVersion (bumpFor "104.2.0+up1.2.3" "1.3.0" "104.0.0") = Some up /\
    chartVersionOf (fst (calculateNextVersion
                           (bumpFor "104.2.0+up1.2.3" "1.3.0" "104.0.0")))
      = Some (p ++ "+up" ++ up) /\
    semver.Parse (p ++ "+up" ++ up) = inr sv.
Proof.
  destruct (calculateNextVersion_result
              (bumpFor "104.2.0+up1.2.3" "1.3.0" "104.0.0")
              (fst (calculateNextVersion
                      (bumpFor "104.2.0+up1.2.3" "1.3.0" "104.0.0"))))
    as (p & up & sv & ry & pkg & Hup & _ & Hcv & Hp & _).
  - by_computation.
  - exists p, up, sv. split; [exact Hup|]. split; [exact Hcv | exact Hp].
Defined.

(* ------------------------------------------------------------------ *)
(** ** What parsePackageYaml accepts, and what it does to the receiver *)

Lemma isSome_false {A} (o : option A) : isSome o = false <-> o = None.
Proof. destruct o; cbn; split; congruence. Qed.

Lemma isSome_true {A} (o : option A) : isSome o = true <-> o <> None.
Proof. destruct o; cbn; split; congruence. Qed.

Lemma checkUpstreamOptions_accepts (o : options.UpstreamOptions) :
  checkUpstreamOptions o = None <-> upstreamAccepted o.
Proof.
  unfold checkUpstreamOptions, upstreamAccepted.
  rewrite <- (isSome_false (options.Commit o)).
  rewrite <- (isSome_true (options.ChartRepoBranch o)).
  rewrite <- (isSome_true (options.Subdirectory o)).
  destruct (HasSuffix (options.URL o) ".git"),
           (isSome (options.Commit o)),
           (isSome (options.ChartRepoBranch o)),
           (isSome (options.Subdirectory o)); cbn;
    split; try discriminate; try tauto; intros (? & ? & ? & ?); discriminate.
Qed.

Lemma checkCRDChartOptions_accepts (c : options.CRDChartOptions) :
  checkCRDChartOptions c = None <-> crdAccepted c.
Proof.
  unfold checkCRDChartOptions, crdAccepted.
  rewrite <- !String.eqb_neq.
  destruct (String.eqb (options.TemplateDirectory c) ""),
           (String.eqb (options.CRDDirectory c) ""),
           (options.AddCRDValidationToMainChart c); cbn;
    split; try discriminate; try tauto; intros (? & ? & ?); discriminate.
Qed.

Lemma checkUpstreamOptions_errors (o : options.UpstreamOptions) (e : error) :
  checkUpstreamOptions o = Some e -> In e validatorErrors.
Proof.
  unfold checkUpstreamOptions, validatorErrors.
  repeat match goal with |- context [if ?c then _ else _] => destruct c end;
    intros [= <-]; cbn; tauto.
Qed.

Lemma checkCRDChartOptions_errors (c : options.CRDChartOptions) (e : error) :
  checkCRDChartOptions c = Some e -> In e validatorErrors.
Proof.
  unfold checkCRDChartOptions, validatorErrors.
  repeat match goal with |- context [if ?c then _ else _] => destruct c end;
    intros [= <-]; cbn; tauto.
Qed.

(** One round of the loop over the additional charts. *)
Lemma rangeAdditionalCharts_cons (a : charts.AdditionalChart)
    (l : list charts.AdditionalChart) (b : Bump) :
  rangeAdditionalCharts (a :: l) b
  = match charts.acUpstream a with
    | None => (b, Crash nilDereference)
    | Some o =>
        match checkUpstreamOptions o with
        | Some e => (b, Fail e)
        | None =>
            match charts.CRDChartOptions a with
            | Some c =>
                match checkCRDChartOptions c with
                | Some e => (b, Fail e)
                | None => rangeAdditionalCharts l b
                end
            | None => rangeAdditionalCharts l b
            end
        end
    end.
Proof.
  cbn [rangeAdditionalCharts].
  destruct (charts.acUpstream a) as [o|]; [|reflexivity].
  rewrite (bind_val _ _ b b o) by reflexivity.
  destruct (checkUpstreamOptions o) as [e|]; [reflexivity|].
  rewrite (bind_val _ _ b b tt) by reflexivity.
  destruct (charts.CRDChartOptions a) as [c|].
  - destruct (checkCRDChartOptions c) as [e|]; [reflexivity|].
    now rewrite (bind_val _ _ b b tt) by reflexivity.
  - now rewrite (bind_val _ _ b b tt) by reflexivity.
Qed.

Lemma rangeAdditionalCharts_state (l : list charts.AdditionalChart) (b : Bump) :
  fst (rangeAdditionalCharts l b) = b.
Proof.
  induction l as [|a l IH]; [reflexivity|].
  rewrite rangeAdditionalCharts_cons.
  repeat match goal with |- context [match ?x with _ => _ end] => destruct x end;
    trivial.
Qed.

Lemma rangeAdditionalCharts_accepts (l : list charts.AdditionalChart) (b : Bump) :
  snd (rangeAdditionalCharts l b) = Val tt <-> Forall additionalAccepted l.
Proof.
  induction l as [|a l IH]; [split; [constructor | reflexivity]|].
  rewrite rangeAdditionalCharts_cons. split.
  - intros H. destruct (charts.acUpstream a) as [o|] eqn:Eo; [|discriminate].
    destruct (checkUpstreamOptions o) eqn:Eu; [discriminate|].
    apply checkUpstreamOptions_accepts in Eu.
    assert (Hrest : snd (rangeAdditionalCharts l b) = Val tt /\
                    forall c, charts.CRDChartOptions a = Some c -> crdAccepted c).
    { destruct (charts.CRDChartOptions a) as [c|].
      - destruct (checkCRDChartOptions c) eqn:Ec; [discriminate|].
        split; [exact H|]. intros c' [= <-].
        now apply checkCRDChartOptions_accepts.
      - split; [exact H | discriminate]. }
    destruct Hrest as [Hl Hc]. constructor; [|now apply IH].
    split; [exists o; now split | exact Hc].
  - intros H. inversion H as [|a' l' [(o & Eo & Ho) Hc] Hl]; subst.
    rewrite Eo. apply checkUpstreamOptions_accepts in Ho. rewrite Ho.
    destruct (charts.CRDChartOptions a) as [c|]; [|now apply IH].
    specialize (Hc c eq_refl). apply checkCRDChartOptions_accepts in Hc.
    rewrite Hc. now apply IH.
Qed.

Lemma rangeAdditionalCharts_outcomes (l : list charts.AdditionalChart) (b : Bump) :
  match snd (rangeAdditionalCharts l b) with
  | Val _ => True
  | Fail e => In e validatorErrors
  | Crash p => p = nilDereference /\
               exists a, In a l /\ charts.acUpstream a = None
  end.
Proof.
  induction l as [|a l IH]; [exact I|].
  rewrite rangeAdditionalCharts_cons.
  assert (Hrest : match snd (rangeAdditionalCharts l b) with
                  | Val _ => True
                  | Fail e => In e validatorErrors
                  | Crash p => p = nilDereference /\
                      exists a', In a' (a :: l) /\ charts.acUpstream a' = None
                  end).
  { destruct (snd (rangeAdditionalCharts l b)); trivial.
    destruct IH as [-> (a' & Hin & Ha')]. split; [reflexivity|].
    exists a'. split; [now right | exact Ha']. }
  destruct (charts.acUpstream a) as [o|] eqn:Eo.
  - destruct (checkUpstreamOptions o) eqn:Eu;
      [cbn; now apply (checkUpstreamOptions_errors o)|].
    destruct (charts.CRDChartOptions a) as [c|]; [|exact Hrest].
    destruct (checkCRDChartOptions c) eqn:Ec;
      [cbn; now apply (checkCRDChartOptions_errors c) | exact Hrest].
  - cbn. split; [reflexivity|]. exists a. split; [now left | exact Eo].
Qed.

(** The checks on a single package, after [b.Pkg] has been assigned. *)
Lemma parsePackageYaml_single (pkg : charts.Package) (b : Bump) :
  parsePackageYaml [pkg] b
  = if negb (charts.Auto pkg) then (setPkg b (Some pkg), Fail errFalseAuto)
    else if String.eqb (charts.Name pkg) ""
         then (setPkg b (Some pkg), Fail errPackageName)
    else if isSome (charts.Version pkg)
         then (setPkg b (Some pkg), Fail errPackageChartVersion)
    else if isSome (charts.PackageVersion pkg)
         then (setPkg b (Some pkg), Fail errPackageVersion)
    else if charts.DoNotRelease pkg
         then (setPkg b (Some pkg), Fail errPackegeDoNotRelease)
    else if String.eqb (charts.WorkingDir (charts.Chart_ pkg)) ""
         then (setPkg b (Some pkg), Fail errChartWorkDir)
    else match checkUpstreamOptions (charts.Upstream (charts.Chart_ pkg)) with
         | Some e => (setPkg b (Some pkg), Fail e)
         | None => rangeAdditionalCharts (charts.AdditionalCharts pkg)
                     (setPkg b (Some pkg))
         end.
Proof.
  cbn [parsePackageYaml].
  rewrite (bind_val _ _ b b b) by reflexivity.
  rewrite (bind_val _ _ b (setPkg b (Some pkg)) tt) by reflexivity.
  destruct (negb (charts.Auto pkg)); [reflexivity|].
  destruct (String.eqb (charts.Name pkg) ""); [reflexivity|].
  destruct (isSome (charts.Version pkg)); [reflexivity|].
  destruct (isSome (charts.PackageVersion pkg)); [reflexivity|].
  destruct (charts.DoNotRelease pkg); [reflexivity|].
  destruct (String.eqb (charts.WorkingDir (charts.Chart_ pkg)) ""); [reflexivity|].
  destruct (checkUpstreamOptions (charts.Upstream (charts.Chart_ pkg))) as [e|];
    [reflexivity|].
  rewrite (bind_val _ _ (setPkg b (Some pkg)) (setPkg b (Some pkg)) tt)
    by reflexivity.
  unfold bind.
  destruct (rangeAdditionalCharts (charts.AdditionalCharts pkg)
              (setPkg b (Some pkg))) as [b' [[]|e|p]]; reflexivity.
Qed.

Lemma parsePackageYaml_single_accepts (pkg : charts.Package) (b : Bump) :
  snd (parsePackageYaml [pkg] b) = Val tt <-> packageAccepted pkg.
Proof.
  rewrite parsePackageYaml_single. split.
  - intros H. unfold packageAccepted.
    destruct (charts.Auto pkg); [|discriminate].
    destruct (String.eqb (charts.Name pkg) "") eqn:En; [discriminate|].
    destruct (isSome (charts.Version pkg)) eqn:Ev; [discriminate|].
    destruct (isSome (charts.PackageVersion pkg)) eqn:Epv; [discriminate|].
    destruct (charts.DoNotRelease pkg); [discriminate|].
    destruct (String.eqb (charts.WorkingDir (charts.Chart_ pkg)) "") eqn:Ew;
      [discriminate|].
    destruct (checkUpstreamOptions (charts.Upstream (charts.Chart_ pkg))) eqn:Eu;
      [discriminate|].
    cbn in H.
    split; [reflexivity|]. split; [now apply String.eqb_neq|].
    split; [now apply isSome_false|]. split; [now apply isSome_false|].
    split; [reflexivity|]. split; [now apply String.eqb_neq|].
    split; [now apply checkUpstreamOptions_accepts|].
    now apply (rangeAdditionalCharts_accepts _ (setPkg b (Some pkg))).
  - intros (Ha & Hn & Hv & Hpv & Hd & Hw & Hu & Hl).
    apply String.eqb_neq in Hn, Hw. apply isSome_false in Hv, Hpv.
    apply checkUpstreamOptions_accepts in Hu.
    rewrite Ha, Hn, Hv, Hpv, Hd, Hw, Hu. cbn [negb].
    now apply rangeAdditionalCharts_accepts.
Qed.

Lemma parsePackageYaml_stores (pkg : charts.Package) (b : Bump) :
  fst (parsePackageYaml [pkg] b) = setPkg b (Some pkg).
Proof.
  rewrite parsePackageYaml_single.
  pose proof (rangeAdditionalCharts_state (charts.AdditionalCharts pkg)
                (setPkg b (Some pkg))) as Hst.
  repeat match goal with
         | |- context [if ?c then _ else _] => destruct c
         | |- context [match checkUpstreamOptions ?o with _ => _ end] =>
             destruct (checkUpstreamOptions o)
         end; trivial.
Qed.

(** X11.  [parsePackageYaml] returns [nil] exactly when it is given a
    single package that has [auto] set, a name, no chart version and no
    package version, [doNotRelease] unset, a working directory, an upstream
    whose URL ends in [.git], with no commit, with a branch and a
    subdirectory, and whose additional charts each have such an upstream
    and, if they declare CRD options, a template directory, a CRD directory
    and the validation flag set. *)
Theorem parsePackageYaml_accepts (packages : list charts.Package) (b : Bump) :
  snd (parsePackageYaml packages b) = Val tt <->
  exists pkg, packages = [pkg] /\ packageAccepted pkg.
Proof.
  destruct packages as [|pkg [|q rest]].
  - split; [discriminate | intros (pkg & E & _); discriminate].
  - rewrite parsePackageYaml_single_accepts. split.
    + intros H. now exists pkg.
    + now intros (pkg' & [= <-] & H).
  - split; [discriminate | intros (pkg' & E & _); discriminate].
Qed.

(** X12.  Given a single package, [parsePackageYaml] stores it in [b.Pkg]
    before checking it, so the receiver holds the package whether it is
    accepted or rejected, and nothing else of the receiver changes; an
    error it returns is one of the validator's thirteen; and it panics only
    with a nil dereference, on an additional chart that has no upstream.
    Given no package or several, it returns [errNoPackage] or
    [errMultiplePackages] and leaves the receiver as it was. *)
Theorem parsePackageYaml_receiver (b : Bump) :
  (forall pkg,
     fst (parsePackageYaml [pkg] b) = setPkg b (Some pkg) /\
     match snd (parsePackageYaml [pkg] b) with
     | Val _ => True
     | Fail e => In e validatorErrors
     | Crash p => p = nilDereference /\
                  exists a, In a (charts.AdditionalCharts pkg) /\
                            charts.acUpstream a = None
     end) /\
  parsePackageYaml [] b = (b, Fail errNoPackage) /\
  (forall p q rest,
     parsePackageYaml (p :: q :: rest) b = (b, Fail errMultiplePackages)).
Proof.
  split; [|split; reflexivity].
  intros pkg. rewrite parsePackageYaml_single.
  pose proof (rangeAdditionalCharts_state (charts.AdditionalCharts pkg)
                (setPkg b (Some pkg))) as Hst.
  pose proof (rangeAdditionalCharts_outcomes (charts.AdditionalCharts pkg)
                (setPkg b (Some pkg))) as Hout.
  pose proof (checkUpstreamOptions_errors (charts.Upstream (charts.Chart_ pkg)))
    as Hup.
  destruct (negb (charts.Auto pkg)); [split; [reflexivity | cbn; tauto]|].
  destruct (String.eqb (charts.Name pkg) ""); [split; [reflexivity | cbn; tauto]|].
  destruct (isSome (charts.Version pkg)); [split; [reflexivity | cbn; tauto]|].
  destruct (isSome (charts.PackageVersion pkg));
    [split; [reflexivity | cbn; tauto]|].
  destruct (charts.DoNotRelease pkg); [split; [reflexivity | cbn; tauto]|].
  destruct (String.eqb (charts.WorkingDir (charts.Chart_ pkg)) "");
    [split; [reflexivity | cbn; tauto]|].
  destruct (checkUpstreamOptions (charts.Upstream (charts.Chart_ pkg))) as [e|];
    [split; [reflexivity | now apply Hup]|].
  split; [exact Hst | exact Hout].
Qed.

(* ------------------------------------------------------------------ *)
(** ** SetupBump *)

Lemma parseBranchVersion_prefix (targetBranch line : string) :
  parseBranchVersion targetBranch = (line, None) ->
  targetBranch = "dev-v" ++ line.
Proof.
  unfold parseBranchVersion, TrimPrefix.
  destruct (HasPrefix targetBranch "dev-v") eqn:E; cbn [negb]; [|discriminate].
  intros [= <-]. now apply HasPrefix_split in E.
Qed.

Lemma parseChartFromPackage_outcomes (targetPackage : string) (b : Bump) :
  (exists chart,
     parseChartFromPackage targetPackage b = (setTargetChart b chart, Val tt) /\
     Contains chart "/" = false) \/
  parseChartFromPackage targetPackage b = (b, Fail errBadPackage).
Proof.
  assert (Hsep : "/" <> "") by discriminate.
  destruct (Split_shape "/" Hsep _ targetPackage (Nat.le_refl _))
    as (l & x & Hsplit & _ & Hx & _).
  unfold parseChartFromPackage. rewrite Hsplit.
  destruct (Nat.eqb (List.length (l ++ [x])) 1) eqn:E1.
  - left. exists x. split; [|exact Hx]. unfold index.
    destruct l as [|y l]; [reflexivity|].
    apply Nat.eqb_eq in E1. rewrite List.length_app in E1. cbn in E1. lia.
  - destruct (Nat.ltb 1 (List.length (l ++ [x]))
              && Nat.leb (List.length (l ++ [x])) 4); [|now right].
    left. exists x. split; [|exact Hx].
    unfold index. now rewrite nth_error_last_snoc.
Qed.

Section SetupFacts.

Context {ExtError RootFs : Type}.
Variable InitDependencies :
  string -> string -> string -> ExtError + Dependencies RootFs.
Variable GetPackages : string -> string -> ExtError + list charts.Package.
Variable GetAbsPath : RootFs -> string.

Lemma SetupBump_success (repoRoot targetPackage targetBranch : string)
    (bump : option Bump) :
  SetupBump InitDependencies GetPackages GetAbsPath
    repoRoot targetPackage targetBranch = Returned bump None ->
  exists branch chart deps pkg,
    targetBranch = "dev-v" ++ branch /\
    parseChartFromPackage targetPackage newBump
      = (setTargetChart newBump chart, Val tt) /\
    InitDependencies repoRoot branch chart = inr deps /\
    GetPackages repoRoot targetPackage = inr [pkg] /\
    packageAccepted pkg /\
    Contains chart "/" = false /\
    bump = Some (mkBump chart (Some pkg)
                   (if String.eqb (GetAbsPath (RootFs_ deps)) "" then None
                    else Some (mkRelease chart (GetAbsPath (RootFs_ deps)) ""))
                   (VR deps) (AssetsVersionsMap deps) None).
Proof.
  unfold SetupBump. intros H.
  destruct (parseBranchVersion targetBranch) as [branch [e|]] eqn:Eb;
    [discriminate|].
  apply (parseBranchVersion_prefix targetBranch branch) in Eb.
  destruct (parseChartFromPackage_outcomes targetPackage newBump)
    as [(chart & Ec & Hchart) | Ec]; rewrite Ec in H; [|discriminate].
  cbn [targetChart setTargetChart] in H.
  destruct (InitDependencies repoRoot branch chart) as [e|deps] eqn:Ed;
    [discriminate|].
  destruct (GetPackages repoRoot targetPackage) as [e|packages] eqn:Ep;
    [discriminate|].
  destruct (parsePackageYaml packages _) as [b' r] eqn:Ey.
  assert (Hr : r = Val tt) by (destruct r as [[]|e|p]; [reflexivity|discriminate..]).
  subst r.
  assert (Hacc : exists pkg, packages = [pkg] /\ packageAccepted pkg).
  { destruct packages as [|pkg [|q rest]]; [discriminate| |discriminate].
    exists pkg. split; [reflexivity|].
    apply (parsePackageYaml_single_accepts pkg
             (setDependencies (setTargetChart newBump chart) deps)).
    now rewrite Ey. }
  destruct Hacc as (pkg & -> & Hacc).
  pose proof (parsePackageYaml_stores pkg
                (setDependencies (setTargetChart newBump chart) deps)) as Hst.
  rewrite Ey in Hst. cbn [fst] in Hst. subst b'.
  exists branch, chart, deps, pkg.
  split; [exact Eb|]. split; [exact Ec|]. split; [exact Ed|].
  split; [reflexivity|]. split; [exact Hacc|]. split; [exact Hchart|].
  destruct (String.eqb (GetAbsPath (RootFs_ deps)) "");
    injection H as H; subst bump; reflexivity.
Qed.

(** X13.  [SetupBump] returns a nil error only for a development branch
    ["dev-v<line>"], with a non-nil [*Bump] whose package is the single
    package read for the target and has passed [parsePackageYaml], whose
    target chart (the last component of the package path) holds no ["/"],
    whose rules and published versions are those of the dependencies read
    for that branch line and chart, whose [versions] are not yet loaded,
    and whose release descriptor, when present, names the target chart, a
    non-empty path and no chart version yet. *)
Theorem SetupBump_returns_validated (repoRoot targetPackage targetBranch : string)
    (bump : option Bump)
    (H : SetupBump InitDependencies GetPackages GetAbsPath
           repoRoot targetPackage targetBranch = Returned bump None) :
  exists b pkg branch deps,
    bump = Some b /\
    targetBranch = "dev-v" ++ branch /\
    GetPackages repoRoot targetPackage = inr [pkg] /\
    Pkg b = Some pkg /\ packageAccepted pkg /\
    Contains (targetChart b) "/" = false /\
    InitDependencies repoRoot branch (targetChart b) = inr deps /\
    versionRules b = VR deps /\
    assetsVersionsMap b = AssetsVersionsMap deps /\
    versions_ b = None /\
    match releaseYaml b with
    | None => GetAbsPath (RootFs_ deps) = ""
    | Some r => Chart r = targetChart b /\
                ReleaseYamlPath r = GetAbsPath (RootFs_ deps) /\
                ReleaseYamlPath r <> "" /\ ChartVersion r = ""
    end.
Proof.
  destruct (SetupBump_success _ _ _ _ H)
    as (branch & chart & deps & pkg & Eb & Ec & Ed & Ep & Hacc & Hchart & ->).
  eexists _, pkg, branch, deps. split; [reflexivity|]. cbn.
  split; [exact Eb|]. split; [exact Ep|]. split; [reflexivity|].
  split; [exact Hacc|]. split; [exact Hchart|]. split; [exact Ed|].
  split; [reflexivity|]. split; [reflexivity|]. split; [reflexivity|].
  destruct (String.eqb (GetAbsPath (RootFs_ deps)) "") eqn:E.
  - now apply String.eqb_eq.
  - cbn. apply String.eqb_neq in E. now repeat split.
Qed.


End SetupFacts.

Lemma SetupBump_returns_validated_witness :
  exists b pkg branch deps,
    Some (mkBump "chart" (Some pkgValid)
            (Some (mkRelease "chart" "release.yaml" ""))
            (VR (repoDependencies "2.9"))
            (AssetsVersionsMap (repoDependencies "2.9")) None) = Some b /\
    "dev-v2.9" = "dev-v" ++ branch /\
    @inr unit _ [pkgValid] = inr [pkg] /\
    Pkg b = Some pkg /\ packageAccepted pkg /\
    Contains (targetChart b) "/" = false /\
    @inr unit _ (repoDependencies branch) = inr deps /\
    versionRules b = VR deps /\
    assetsVersionsMap b = AssetsVersionsMap deps /\
    versions_ b = None /\
    match releaseYaml b with
    | None => "release.yaml" = ""
    | Some r => Chart r = targetChart b /\
                ReleaseYamlPath r = "release.yaml" /\
                ReleaseYamlPath r <> "" /\ ChartVersion r = ""
    end.
Proof.
  apply (SetupBump_returns_validated
           (fun _ branch _ => inr (repoDependencies branch))
           (fun _ _ => inr [pkgValid])
           (fun _ => "release.yaml")
           "/repo" "chart" "dev-v2.9").
  by_computation.
Defined.


(* ------------------------------------------------------------------ *)
(** ** calculateNextVersion run again *)

Lemma applyVersionRules_success_rule (b b' : Bump) :
  applyVersionRules b = (b', Val tt) ->
  exists rule r, ruleMin b = Some rule /\ semver.Make rule = inr r.
Proof.
  unfold applyVersionRules, ruleMin. intros H. run_in H.
  destruct (versionRules b) as [vr|]; cbn in *; [|discriminate].
  destruct (semver.Make _) as [e|r] eqn:Er; [discriminate|].
  eauto.
Qed.

(** Step C, run forward. *)
Lemma calculateNextVersion_compose (b b1 b2 : Bump) (vs : versions)
    (sv : semver.Version) (ry : Release) (pkg : charts.Package) :
  loadVersions b = (b1, Val tt) ->
  applyVersionRules b1 = (b2, Val tt) ->
  versions_ b2 = Some vs ->
  semver.Parse (txt (toReleaseRepoPrefix vs) ++ "+up" ++ txt (toRelease vs))
    = inr sv ->
  releaseYaml b2 = Some ry -> Pkg b2 = Some pkg ->
  calculateNextVersion b
  = (setPkg
       (setReleaseYaml b2
          (Some (setChartVersion ry
                   (txt (toReleaseRepoPrefix vs) ++ "+up" ++ txt (toRelease vs)))))
       (Some (setAutoGeneratedBumpVersion pkg (Some sv))),
     Val tt).
Proof.
  intros E1 E2 Hvs Hp Hry Hpkg. unfold calculateNextVersion.
  rewrite (bind_val _ _ _ _ _ E1), (bind_val _ _ _ _ _ E2).
  run. rewrite Hvs. cbn. rewrite Hvs. cbn.
  change (String "+" (String "u" (String "p" (txt (toRelease vs)))))
    with ("+up" ++ txt (toRelease vs)).
  rewrite Hp. cbn. rewrite Hry. cbn. rewrite Hpkg. reflexivity.
Qed.

Lemma Loaded_same_inputs (b b' : Bump) (vs : versions) :
  latestPublished b' = latestPublished b ->
  upstreamVersion b' = upstreamVersion b ->
  Loaded b vs -> Loaded b' vs.
Proof.
  intros Hp Hu (pub & lrp & lv & found & up & l & t & H).
  exists pub, lrp, lv, found, up, l, t. now rewrite Hp, Hu.
Qed.

Lemma applyVersionRules_same_cells (b b' : Bump) (vs : versions)
    (b2 : Bump) :
  Loaded b vs -> Loaded b' vs -> ruleMin b' = ruleMin b ->
  applyVersionRules (setVersions b (Some vs)) = (b2, Val tt) ->
  exists x,
    b2 = setVersions b (Some (writeCell vs cToReleaseRepoPrefix x)) /\
    applyVersionRules (setVersions b' (Some vs))
    = (setVersions b' (Some (writeCell vs cToReleaseRepoPrefix x)), Val tt).
Proof.
  intros HL HL' Hrm E2.
  destruct (applyVersionRules_success_rule _ _ E2) as (rule & r & Hrule & Hr).
  rewrite ruleMin_setVersions in Hrule.
  assert (Hrule' : ruleMin b' = Some rule) by congruence.
  destruct (loaded_cases b vs rule r HL Hrule Hr) as [HT | (c & t & l & HC)].
  - rewrite (applyVersionRules_transition _ _ _ _ HT) in E2.
    injection E2 as <-. eexists. split; [reflexivity|].
    apply (applyVersionRules_transition (setVersions b' (Some vs)) vs rule r).
    destruct HT as (_ & _ & _ & Hcase). repeat split; assumption.
  - rewrite (applyVersionRules_continuation _ _ _ _ _ _ HC) in E2.
    injection E2 as <-. eexists. split; [reflexivity|].
    apply (applyVersionRules_continuation (setVersions b' (Some vs)) vs r c t l).
    destruct HC as (_ & _ & Hrest). split; [reflexivity|].
    split; [exists rule; now split | exact Hrest].
Qed.

(** X16.  [calculateNextVersion] is idempotent: run again on the receiver
    that a successful run has left, it returns [nil] again and leaves the
    receiver exactly as it is, with the same chart version and the same
    auto-generated version. *)
Theorem calculateNextVersion_idempotent (b b' : Bump)
    (H : calculateNextVersion b = (b', Val tt)) :
  calculateNextVersion b' = (b', Val tt).
Proof.
  destruct (calculateNextVersion_steps b)
    as [(b1 & r1 & E1 & Hr & Ec) | [(b1 & b2 & r2 & E1 & E2 & Hr & Ec)
        | (b1 & b2 & b3 & r3 & E1 & E2 & Ec & _ & Hok)]];
    rewrite Ec in H; injection H as Hb' Hr'.
  - now elim Hr.
  - now elim Hr.
  - subst b3.
    destruct (Hok Hr') as (trp & tr & ry & pkg & sv & Htrp & Htr & Hry & Hpkg
                           & Hp & Hb3).
    destruct (loadVersions_inv _ _ _ E1 (or_introl eq_refl))
      as (vs & t & l & HL & Hb1 & Ht & Hl & Hres).
    assert (Hlt : semver.LT t l = false)
      by (destruct (semver.LT t l); [discriminate | reflexivity]).
    subst b1.
    destruct (applyVersionRules_cells _ _ _ vs E2 eq_refl) as [x0 Hb2].
    rewrite setVersions_twice in Hb2. subst b2.
    cbn in Htrp, Htr, Hry, Hpkg.
    injection Htrp as <-. injection Htr as <-.
    assert (HL' : Loaded b' vs).
    { apply (Loaded_same_inputs b); [| |exact HL].
      - rewrite Hb3. reflexivity.
      - rewrite Hb3. unfold upstreamVersion. cbn [Pkg setPkg option_map].
        now rewrite Hpkg. }
    assert (Hrm : ruleMin b' = ruleMin b) by (rewrite Hb3; reflexivity).
    destruct (applyVersionRules_same_cells b b' vs _ HL HL' Hrm E2)
      as (x & Hx & E2').
    assert (Ex : x = x0).
    { cbn in Hx. now injection Hx as ->. }
    subst x.
    assert (E1' : loadVersions b' = (setVersions b' (Some vs), Val tt)).
    { rewrite (loadVersions_run _ _ _ _ HL' Ht Hl), Hlt. reflexivity. }
    rewrite (calculateNextVersion_compose b' _ _
               (writeCell vs cToReleaseRepoPrefix x0) sv
               (setChartVersion ry (txt x0 ++ "+up" ++ txt (toRelease vs)))
               (setAutoGeneratedBumpVersion pkg (Some sv)) E1' E2').
    + rewrite Hb3. reflexivity.
    + reflexivity.
    + exact Hp.
    + rewrite Hb3. reflexivity.
    + rewrite Hb3. reflexivity.
Qed.

Lemma calculateNextVersion_idempotent_witness :
  calculateNextVersion
    (fst (calculateNextVersion (bumpFor "104.2.0+up1.2.3" "1.3.0" "104.0.0")))
  = (fst (calculateNextVersion (bumpFor "104.2.0+up1.2.3" "1.3.0" "104.0.0")),
     Val tt).
Proof.
  apply (calculateNextVersion_idempotent
           (bumpFor "104.2.0+up1.2.3" "1.3.0" "104.0.0")).
  by_computation.
Defined.

(* ------------------------------------------------------------------ *)
(** ** A semantic version holds at most one ['+'] *)

Lemma countByte_app (c : ascii) (a b : string) :
  countByte c (a ++ b) = (countByte c a + countByte c b)%nat.
Proof. induction a as [|x a IH]; cbn; [reflexivity|]. rewrite IH. lia. Qed.

Lemma HasPrefix_char (c x : ascii) (s : string) :
  HasPrefix (String x s) (String c "") = Ascii.eqb c x.
Proof. rewrite HasPrefix_cons. cbn. apply andb_true_r. Qed.

Lemma Index_char_absent (c : ascii) (s : string) :
  Index s (String c "") < 0 -> countByte c s = O.
Proof.
  induction s as [|x s IH]; [reflexivity|].
  rewrite Index_cons, HasPrefix_char. cbn [countByte].
  rewrite (Ascii.eqb_sym x c).
  destruct (Ascii.eqb c x); [lia|].
  destruct (Index s (String c "") <? 0) eqn:E; [|apply Z.ltb_ge in E; lia].
  apply Z.ltb_lt in E. intros _. now rewrite IH.
Qed.

Lemma Index_char_present (c : ascii) (s : string) :
  0 <= Index s (String c "") -> (1 <= countByte c s)%nat.
Proof.
  induction s as [|x s IH]; [cbn; lia|].
  rewrite Index_cons, HasPrefix_char. cbn [countByte].
  rewrite (Ascii.eqb_sym x c).
  destruct (Ascii.eqb c x); [lia|].
  destruct (Index s (String c "") <? 0) eqn:E; [lia|].
  apply Z.ltb_ge in E. intros _. specialize (IH E). lia.
Qed.

Lemma containsOnly_absent (c : ascii) (set s : string) :
  Contains set (String c "") = false ->
  semver.containsOnly s set = true -> countByte c s = O.
Proof.
  intros Hc. induction s as [|x s IH]; [reflexivity|].
  cbn [semver.containsOnly countByte]. intros H.
  apply andb_true_iff in H as [Hx Hs]. rewrite (IH Hs).
  destruct (Ascii.eqb x c) eqn:E; [|reflexivity].
  apply Ascii.eqb_eq in E. subst x. congruence.
Qed.

(** A string whose [Split] pieces are free of [c] is free of [c], the
    separator being free of it. *)
Lemma Split_absent (c : ascii) (sep : string) :
  sep <> "" -> countByte c sep = O ->
  forall (n : nat) (s : string), (String.length s <= n)%nat ->
    Forall (fun piece => countByte c piece = O) (Split s sep) ->
    countByte c s = O.
Proof.
  intros Hsep Hc. induction n as [|n IH]; intros s Hn H.
  - destruct s; [reflexivity | cbn in Hn; lia].
  - destruct (Index s sep <? 0) eqn:E.
    + apply Z.ltb_lt in E. rewrite Split_none in H by assumption.
      now inversion H.
    + apply Z.ltb_ge in E.
      pose proof (Index_nonneg_nonempty s sep Hsep E) as Hlen.
      pose proof (len_pos sep Hsep) as Hsp.
      rewrite Split_some in H by assumption.
      inversion H as [|p ps Hp Hps]; subst.
      assert (Hshort : (String.length (drop (Z.to_nat (Index s sep + len sep)) s)
                        <= n)%nat) by (rewrite length_drop; lia).
      rewrite (Index_split s sep E), !countByte_app, Hp, Hc.
      rewrite (IH _ Hshort Hps). reflexivity.
Qed.

Lemma each_checkBuild (l l' : list string) :
  semver.each semver.checkBuild l = inr l' ->
  Forall (fun piece => semver.containsOnly piece semver.alphanum = true) l.
Proof.
  revert l'. induction l as [|x l IH]; intros l' H; [constructor|].
  cbn in H. unfold semver.checkBuild in H at 1.
  destruct (String.eqb x ""); [discriminate|].
  destruct (semver.containsOnly x semver.alphanum) eqn:E; cbn in H; [|discriminate].
  destruct (semver.each semver.checkBuild l) as [e|ys] eqn:El; [discriminate|].
  constructor; [exact E | now apply (IH ys)].
Qed.

Lemma parseNumber_digits (k : semver.component) (s : string) (n : Z) :
  semver.parseNumber k s = inr n -> countByte "+" s = O.
Proof.
  unfold semver.parseNumber.
  destruct (semver.containsOnly s semver.numbers) eqn:E; cbn [negb];
    [|discriminate].
  intros _. now apply (containsOnly_absent "+" semver.numbers).
Qed.

(** The three pieces of [SplitN(s, ".", 3)] put together give [s]. *)
Lemma SplitN3_join (s p0 p1 p2 : string) :
  SplitN s "." 3 = [p0; p1; p2] -> s = p0 ++ "." ++ p1 ++ "." ++ p2.
Proof.
  unfold SplitN.
  pose proof (Nat.le_min_l 2 (String.length s)) as Hmin.
  destruct (Nat.min 2 (String.length s)) as [|[|[|k]]]; [| | |lia].
  - discriminate.
  - rewrite splitLoop_unfold. destruct (Index s "." <? 0); discriminate.
  - rewrite splitLoop_unfold. destruct (Index s "." <? 0) eqn:E; [discriminate|].
    rewrite splitLoop_unfold.
    destruct (Index (drop (Z.to_nat (Index s "." + len ".")) s) "." <? 0) eqn:E';
      [discriminate|].
    apply Z.ltb_ge in E, E'. intros [= <- <- <-].
    rewrite <- (Index_split _ "." E'). now apply Index_split.
Qed.

Lemma Parse_one_plus (s : string) (v : semver.Version) :
  semver.Parse s = inr v -> (countByte "+" s <= 1)%nat.
Proof.
  unfold semver.Parse.
  destruct (String.eqb s ""); [discriminate|].
  destruct (SplitN s "." 3) as [|p0 [|p1 [|p2 [|p3 l]]]] eqn:Es; try discriminate.
  apply SplitN3_join in Es.
  destruct (semver.parseNumber semver.cMajor p0) as [e|major] eqn:E0;
    [discriminate|].
  destruct (semver.parseNumber semver.cMinor p1) as [e|minor] eqn:E1;
    [discriminate|].
  apply parseNumber_digits in E0, E1.
  intros H.
  enough (Hp2 : (countByte "+" p2 <= 1)%nat)
    by (rewrite Es, !countByte_app, E0, E1; cbn; lia).
  unfold IndexRune in H.
  destruct (Index p2 "+" =? -1) eqn:Ei.
  - apply Z.eqb_eq in Ei. rewrite (Index_char_absent "+" p2) by lia. lia.
  - apply Z.eqb_neq in Ei. pose proof (Index_lower p2 "+") as Hlow.
    assert (Hi : 0 <= Index p2 "+") by lia.
    destruct (semver.parseNumber semver.cPatch _) as [e|patch]; [discriminate|].
    destruct (semver.each semver.NewPRVersion _) as [e|pre]; [discriminate|].
    destruct (semver.each semver.checkBuild _) as [e|bld] eqn:Eb; [discriminate|].
    apply each_checkBuild in Eb.
    assert (Hrest : countByte "+" (drop (Z.to_nat (Index p2 "+" + 1)) p2) = O).
    { apply (Split_absent "+" "." ltac:(discriminate) eq_refl _ _ (Nat.le_refl _)).
      eapply Forall_impl; [|exact Eb].
      intros piece Hpiece.
      now apply (containsOnly_absent "+" semver.alphanum). }
    rewrite (Index_split p2 "+" Hi), !countByte_app.
    change (len "+") with 1. rewrite Hrest.
    rewrite (Index_char_absent "+" (take (Z.to_nat (Index p2 "+")) p2)).
    + cbn. lia.
    + apply Contains_false_Index.
      apply Index_take_clean; [discriminate | exact Hi].
Qed.

(** A string with two ['+'] is no semantic version. *)
Lemma Parse_two_plus (s : string) :
  (2 <= countByte "+" s)%nat -> exists e, semver.Parse s = inl e.
Proof.
  intros H. destruct (semver.Parse s) as [e|v] eqn:E; [eauto|].
  apply Parse_one_plus in E. lia.
Qed.

(* ------------------------------------------------------------------ *)
(** ** The panic of Step C *)

Lemma calculateNextVersion_compose_panic (b b1 b2 : Bump) (vs : versions)
    (e : semver.ParseError) :
  loadVersions b = (b1, Val tt) ->
  applyVersionRules b1 = (b2, Val tt) ->
  versions_ b2 = Some vs ->
  semver.Parse (txt (toReleaseRepoPrefix vs) ++ "+up" ++ txt (toRelease vs))
    = inl e ->
  calculateNextVersion b
  = (b2, Crash (mustParse
                  (txt (toReleaseRepoPrefix vs) ++ "+up" ++ txt (toRelease vs)) e)).
Proof.
  intros E1 E2 Hvs Hp. unfold calculateNextVersion.
  rewrite (bind_val _ _ _ _ _ E1), (bind_val _ _ _ _ _ E2).
  run. rewrite Hvs. cbn. rewrite Hvs. cbn.
  change (String "+" (String "u" (String "p" (txt (toRelease vs)))))
    with ("+up" ++ txt (toRelease vs)).
  rewrite Hp. reflexivity.
Qed.

(** X15.  Whenever the upstream version carries build metadata (it
    contains a ['+']) and the first two steps succeed,
    [calculateNextVersion] panics: the string composed in Step C,
    ["<repo-prefix>+up<upstream version>"], then holds two ['+'] and is no
    semantic version, and [semver.MustParse] panics on it.  The same
    happens when the repo-prefix itself contains a ['+'].  The two output
    fields are not written. *)
Theorem calculateNextVersion_panics_on_build_metadata (b b1 b2 : Bump)
    (HA : loadVersions b = (b1, Val tt))
    (HB : applyVersionRules b1 = (b2, Val tt))
    (Hplus : (exists up, upstreamVersion b = Some up /\ Contains up "+" = true) \/
             (exists p, prefixTxt b2 = Some p /\ Contains p "+" = true)) :
  exists p up e,
    prefixTxt b2 = Some p /\ upstreamVersion b = Some up /\
    semver.Parse (p ++ "+up" ++ up) = inl e /\
    calculateNextVersion b = (b2, Crash (mustParse (p ++ "+up" ++ up) e)) /\
    releaseYaml b2 = releaseYaml b /\ Pkg b2 = Pkg b.
Proof.
  destruct (loadVersions_inv _ _ _ HA (or_introl eq_refl))
    as (vs & t & l & HL & Hb1 & _).
  destruct HL as (pub & lrp & lv & found & up & l0 & t0 & _ & _ & _ & _
                  & Hup & _ & _ & _ & _ & Et & _).
  assert (Hvs1 : versions_ b1 = Some vs) by (now rewrite Hb1).
  destruct (applyVersionRules_cells _ _ _ _ HB Hvs1) as [x Hb2].
  assert (Hvs2 : versions_ b2
                 = Some (writeCell vs cToReleaseRepoPrefix x)) by (now rewrite Hb2).
  assert (Hcount : (2 <= countByte "+" (txt x ++ "+up" ++ up))%nat).
  { rewrite !countByte_app. change (countByte "+" "+up") with 1%nat.
    destruct Hplus as [(up' & Hup' & Hc) | (p & Hp & Hc)].
    - rewrite Hup in Hup'. injection Hup' as <-.
      unfold Contains in Hc. apply Z.leb_le in Hc.
      pose proof (Index_char_present "+" up Hc). lia.
    - unfold prefixTxt, repoPrefixOf in Hp. rewrite Hvs2 in Hp. cbn in Hp.
      injection Hp as <-.
      unfold Contains in Hc. apply Z.leb_le in Hc.
      pose proof (Index_char_present "+" (txt x) Hc). lia. }
  destruct (Parse_two_plus _ Hcount) as [e He].
  exists (txt x), up, e.
  split; [unfold prefixTxt, repoPrefixOf; now rewrite Hvs2|].
  split; [exact Hup|]. split; [exact He|].
  split.
  - rewrite (calculateNextVersion_compose_panic b b1 b2
               (writeCell vs cToReleaseRepoPrefix x) e HA HB Hvs2);
      cbn [writeCell toReleaseRepoPrefix toRelease]; rewrite Et; cbn [txt];
      [reflexivity | exact He].
  - destruct (loadVersions_outputs _ _ _ HA) as [Hy1 Hp1].
    destruct (applyVersionRules_outputs _ _ _ HB) as [Hy2 Hp2].
    split; congruence.
Qed.

Lemma calculateNextVersion_panics_on_build_metadata_witness :
  exists p up e,
    prefixTxt (fst (applyVersionRules
                      (loadedFor "104.2.0+up1.2.3" "1.2.4+build5" "104.0.0")))
      = Some p /\
    upstreamVersion (bumpFor "104.2.0+up1.2.3" "1.2.4+build5" "104.0.0") = Some up /\
    semver.Parse (p ++ "+up" ++ up) = inl e /\
    snd (calculateNextVersion (bumpFor "104.2.0+up1.2.3" "1.2.4+build5" "104.0.0"))
      = Crash (mustParse (p ++ "+up" ++ up) e).
Proof.
  destruct (calculateNextVersion_panics_on_build_metadata
              (bumpFor "104.2.0+up1.2.3" "1.2.4+build5" "104.0.0")
              (loadedFor "104.2.0+up1.2.3" "1.2.4+build5" "104.0.0")
              (fst (applyVersionRules
                      (loadedFor "104.2.0+up1.2.3" "1.2.4+build5" "104.0.0"))))
    as (p & up & e & Hp & Hup & He & Hc & _).
  - by_computation.
  - by_computation.
  - left. exists "1.2.4+build5". split; by_computation.
  - exists p, up, e. split; [exact Hp|]. split; [exact Hup|].
    split; [exact He|]. now rewrite Hc.
Defined.
